(** * webtraffic: the recursive browsing / backoff engine of [main.go]

    A shallow embedding of the core of the traffic generator: the link
    extractor ([getLinks] and [linkRegex]), the blacklist filter
    ([isBlacklisted]), the fetcher with its 429 backoff ([doRequest]), the
    traversal engine ([recursiveBrowse]) and the driver loop ([run]).

    Go's [int64], and its [int] on the 64-bit platforms, are 64-bit two's
    complement integers whose arithmetic wraps around; they are modelled as
    [Z] with the wrap-around written out.  Go strings and byte slices are byte sequences and are
    modelled as [string] (a sequence of 8-bit [ascii]).  The network and the
    random number generator are oracles of an environment; the global
    variables and the viper store are an explicit state. *)

From Stdlib Require Import ZArith List String Ascii Bool Lia Arith.
Import ListNotations.

Local Open Scope string_scope.
Local Open Scope Z_scope.

(** ** Go machine integers *)

Module GoInt.

Definition bits : Z := 64.
Definition modulus : Z := 2 ^ bits.
Definition MaxInt : Z := 2 ^ (bits - 1) - 1.
Definition MinInt : Z := - 2 ^ (bits - 1).

(** Two's complement wrap-around of a mathematical integer into [int]. *)
Definition wrap (z : Z) : Z := (z + 2 ^ (bits - 1)) mod modulus - 2 ^ (bits - 1).
Arguments wrap z : simpl never.

Definition add (a b : Z) : Z := wrap (a + b).
Definition sub (a b : Z) : Z := wrap (a - b).
Definition mul (a b : Z) : Z := wrap (a * b).

Definition in_range (z : Z) : Prop := MinInt <= z <= MaxInt.

(** The value of an [int] read as an unsigned 64-bit number. *)
Definition unsigned (z : Z) : Z := z mod modulus.

End GoInt.

(** ** Byte strings *)

(** The double quote character, byte 34. *)
Definition dquote : ascii := "034"%char.

Definition is_dquote (c : ascii) : bool := Ascii.eqb c dquote.

(** [strip_prefix p s] removes the literal [p] from the front of [s]. *)
Fixpoint strip_prefix (p s : string) : option string :=
  match p with
  | EmptyString => Some s
  | String a p' =>
      match s with
      | String b s' => if Ascii.eqb a b then strip_prefix p' s' else None
      | EmptyString => None
      end
  end.

(** [strings.Contains(s, substr)]: whether [substr] occurs within [s]. *)
Fixpoint Contains (s substr : string) : bool :=
  match strip_prefix substr s with
  | Some _ => true
  | None =>
      match s with
      | EmptyString => false
      | String _ s' => Contains s' substr
      end
  end.

(** [sub] occurs within [s]. *)
Definition Substring (sub s : string) : Prop :=
  exists pre post, s = pre ++ sub ++ post.

(** The slice expression [s[lo:hi]] of Go; [None] is the run-time panic for
    bounds out of range. *)
Definition slice (s : string) (lo hi : Z) : option string :=
  if (0 <=? lo) && (lo <=? hi) && (hi <=? Z.of_nat (String.length s))
  then Some (substring (Z.to_nat lo) (Z.to_nat (hi - lo)) s)
  else None.

(** ** The link pattern

    [linkRegex] is the pattern of three groups: the literal [href=] followed
    by a double quote; then [http], an optional [s], [://] and one or more
    bytes other than a double quote (greedy); then a closing double quote.
    Its literals are ASCII and its class excludes one ASCII byte, so matching
    byte by byte and matching rune by rune agree. *)

Module LinkRegex.

(** The greedy run of bytes other than the double quote: the longest
    prefix free of double quotes and what follows it. *)
Fixpoint span_nonquote (s : string) : string * string :=
  match s with
  | EmptyString => (EmptyString, EmptyString)
  | String c s' =>
      if is_dquote c then (EmptyString, s)
      else let '(u, r) := span_nonquote s' in (String c u, r)
  end.

Definition href_open : string := "href=" ++ String dquote "http".

(** The end of the pattern, from [://] to the closing double quote,
    anchored at the front of [s]: the matched text and the remainder of the
    input. *)
Definition match_tail (s : string) : option (string * string) :=
  match strip_prefix "://" s with
  | None => None
  | Some r =>
      match span_nonquote r with
      | (EmptyString, _) => None
      | (u, String c r') =>
          if is_dquote c then Some ("://" ++ u ++ String dquote "", r') else None
      | (_, EmptyString) => None
      end
  end.

(** The whole pattern anchored at the front of [s].  The optional [s] is
    greedy: the branch that consumes it is tried first. *)
Definition match_here (s : string) : option (string * string) :=
  match strip_prefix href_open s with
  | None => None
  | Some r =>
      let with_s :=
        match strip_prefix "s" r with
        | Some r' =>
            match match_tail r' with
            | Some (m, rest) => Some (href_open ++ "s" ++ m, rest)
            | None => None
            end
        | None => None
        end in
      match with_s with
      | Some res => Some res
      | None =>
          match match_tail r with
          | Some (m, rest) => Some (href_open ++ m, rest)
          | None => None
          end
      end
  end.

(** Successive non-overlapping matches, leftmost first: the search resumes
    where the previous match ended, or one byte further when there is no
    match at the current position. *)
Fixpoint find_all (fuel : nat) (s : string) : list string :=
  match fuel with
  | O => []
  | S fuel' =>
      match match_here s with
      | Some (m, rest) => m :: find_all fuel' rest
      | None =>
          match s with
          | EmptyString => []
          | String _ s' => find_all fuel' s'
          end
      end
  end.

(** [linkRegex.FindAllString(s, -1)]. *)
Definition FindAllString (s : string) : list string :=
  find_all (S (String.length s)) s.

End LinkRegex.

(** ** The process state *)

(** The viper configuration store, with the keys the program reads, each at
    the type its getter returns. *)
Record Viper : Type := mkViper {
  verbose : bool;
  max_depth : Z;
  min_depth : Z;
  max_wait : Z;
  min_wait : Z;
  root_urls : list string;
  blacklist : list string;
  user_agent : string
}.

Definition set_min_wait (x : Z) (v : Viper) : Viper :=
  mkViper (verbose v) (max_depth v) (min_depth v) (max_wait v) x
          (root_urls v) (blacklist v) (user_agent v).

Definition set_max_wait (x : Z) (v : Viper) : Viper :=
  mkViper (verbose v) (max_depth v) (min_depth v) x (min_wait v)
          (root_urls v) (blacklist v) (user_agent v).

Definition set_blacklist (x : list string) (v : Viper) : Viper :=
  mkViper (verbose v) (max_depth v) (min_depth v) (max_wait v) (min_wait v)
          (root_urls v) x (user_agent v).

(** What the process does that can be observed from outside: the log lines
    that name a URL, the responses received, and the suspensions. *)
Inductive Event : Type :=
| EvRoot (url : string)                (* Randomly selected ... as the Root URL *)
| EvBrowse (url : string) (depth : Z)  (* Recursively browsing *)
| EvRequest (url : string)             (* Requesting page... : one call of doRequest *)
| EvResponse (StatusCode pageSize : Z) (* a response whose body was read in full *)
| EvSleep (nanoseconds : Z).           (* time.Sleep *)

(** The package-level variables, the viper store, the number of requests and
    of random draws made so far, and the events so far, oldest first. *)
Record State : Type := mkState {
  dataMeter : Z;
  goodRequests : Z;
  badRequests : Z;
  viper : Viper;
  nreq : nat;
  ndraw : nat;
  trace : list Event
}.

Definition with_viper (f : Viper -> Viper) (st : State) : State :=
  mkState (dataMeter st) (goodRequests st) (badRequests st) (f (viper st))
          (nreq st) (ndraw st) (trace st).

Definition emit (e : Event) (st : State) : State :=
  mkState (dataMeter st) (goodRequests st) (badRequests st) (viper st)
          (nreq st) (ndraw st) (trace st ++ [e]).

Definition Second : Z := 1000000000.

(** [time.Sleep(time.Duration(n) * time.Second)]. *)
Definition Sleep_seconds (n : Z) (st : State) : State :=
  emit (EvSleep (GoInt.mul n Second)) st.

(** ** The environment *)

(** How one HTTP exchange ends. *)
Inductive Exchange : Type :=
| NewRequestError                          (* http.NewRequest fails *)
| TransportError                           (* client.Do fails *)
| ReadError (partial : string)             (* io.ReadAll fails *)
| Response (StatusCode : Z) (body : string).

Inductive error : Type := ErrNewRequest | ErrTransport | ErrRead.

(** The network answers the [n]-th request of the process, for a URL and a
    user agent; the random source gives the [n]-th draw. *)
Record Env : Type := mkEnv {
  http : nat -> string -> string -> Exchange;
  rand_src : nat -> Z
}.

(** ** Outcomes: a value and the state after, a run-time panic in the state
    it happens in, or a model that ran out of fuel *)

Inductive Outcome (A : Type) : Type :=
| Ok (a : A) (st : State)
| Panic (st : State)
| OutOfFuel.
Arguments Ok {A} a st.
Arguments Panic {A} st.
Arguments OutOfFuel {A}.

Definition M (A : Type) : Type := State -> Outcome A.

Definition ret {A} (a : A) : M A := fun st => Ok a st.

Definition bind {A B} (m : M A) (k : A -> M B) : M B :=
  fun st =>
    match m st with
    | Ok a st' => k a st'
    | Panic st' => Panic st'
    | OutOfFuel => OutOfFuel
    end.

Definition get : M State := fun st => Ok st st.
Definition modify (f : State -> State) : M unit := fun st => Ok tt (f st).

Declare Scope go_scope.
Delimit Scope go_scope with go.
Notation "x <- m ;; k" := (bind m (fun x => k))
  (at level 100, m at next level, right associativity) : go_scope.
Notation "m ;;; k" := (bind m (fun _ => k))
  (at level 100, right associativity) : go_scope.

(** [rand.Intn(n)]: panics unless [0 < n], else a number in [[0, n)]. *)
Definition Intn (env : Env) (n : Z) : M Z :=
  fun st =>
    if n <=? 0 then Panic st
    else Ok (rand_src env (ndraw st) mod n)
            (mkState (dataMeter st) (goodRequests st) (badRequests st) (viper st)
                     (nreq st) (S (ndraw st)) (trace st)).

(** Indexing a slice: out of range is a run-time panic. *)
Definition index {A} (l : list A) (i : Z) : M A :=
  fun st =>
    if i <? 0 then Panic st
    else match nth_error l (Z.to_nat i) with
         | Some a => Ok a st
         | None => Panic st
         end.

Definition len {A} (l : list A) : Z := Z.of_nat (List.length l).

(** ** The blacklist filter and the link extractor *)

Fixpoint isBlacklisted_in (entries : list string) (link : string) : bool :=
  match entries with
  | [] => false
  | blacklisted :: entries' =>
      if Contains link blacklisted then true else isBlacklisted_in entries' link
  end.

Definition isBlacklisted (link : string) (st : State) : bool :=
  isBlacklisted_in (blacklist (viper st)) link.

(** The loop of [getLinks] over the matches, [validLinks] being the slice
    built so far; [None] is the panic of the slice expression. *)
Fixpoint getLinks_loop (st : State) (links validLinks : list string)
  : option (list string) :=
  match links with
  | [] => Some validLinks
  | link :: links' =>
      match slice link 6 (Z.of_nat (String.length link) - 1) with
      | None => None
      | Some cleanLink =>
          if negb (isBlacklisted cleanLink st)
          then getLinks_loop st links' (validLinks ++ [cleanLink])
          else getLinks_loop st links' validLinks
      end
  end.

Definition getLinks (content : string) : M (list string) :=
  fun st =>
    match getLinks_loop st (LinkRegex.FindAllString content) [] with
    | Some validLinks => Ok validLinks st
    | None => Panic st
    end.

(** ** The fetcher *)

Definition count_request (st : State) : State :=
  mkState (dataMeter st) (goodRequests st) (badRequests st) (viper st)
          (S (nreq st)) (ndraw st) (trace st).

Definition add_dataMeter (pageSize : Z) (st : State) : State :=
  mkState (GoInt.add (dataMeter st) pageSize) (goodRequests st) (badRequests st)
          (viper st) (nreq st) (ndraw st) (trace st).

Definition incr_goodRequests (st : State) : State :=
  mkState (dataMeter st) (GoInt.add (goodRequests st) 1) (badRequests st)
          (viper st) (nreq st) (ndraw st) (trace st).

Definition incr_badRequests (st : State) : State :=
  mkState (dataMeter st) (goodRequests st) (GoInt.add (badRequests st) 1)
          (viper st) (nreq st) (ndraw st) (trace st).

(** The 429 branch: both wait bounds are read, increased by 10 and written
    back, the minimum first. *)
Definition backoff (st : State) : State :=
  let st1 := with_viper (set_min_wait (GoInt.add (min_wait (viper st)) 10)) st in
  with_viper (set_max_wait (GoInt.add (max_wait (viper st1)) 10)) st1.

(** [doRequest] never panics: it returns the content and the error, and the
    state after the call. *)
Definition doRequest (env : Env) (url : string) (st : State)
  : (string * option error) * State :=
  let st0 := count_request (emit (EvRequest url) st) in
  match http env (nreq st) url (user_agent (viper st)) with
  | NewRequestError => ((EmptyString, Some ErrNewRequest), st0)
  | TransportError => ((EmptyString, Some ErrTransport), Sleep_seconds 30 st0)
  | ReadError partial => ((partial, Some ErrRead), st0)
  | Response StatusCode content =>
      let pageSize := Z.of_nat (String.length content) in
      let st1 := add_dataMeter pageSize (emit (EvResponse StatusCode pageSize) st0) in
      let st2 :=
        if negb (StatusCode =? 200) then
          let st' := incr_badRequests st1 in
          if StatusCode =? 429 then backoff st' else st'
        else incr_goodRequests st1 in
      ((content, None), st2)
  end.

Definition doRequestM (env : Env) (url : string) : M (string * option error) :=
  fun st => let '(r, st') := doRequest env url st in Ok r st'.

(** ** The traversal engine *)

Definition blacklist_url (url : string) (st : State) : State :=
  with_viper (fun v => set_blacklist (blacklist v ++ [url]) v) st.

Local Open Scope go_scope.

(** [recursiveBrowse], by recursion on fuel: one unit per recursive call. *)
Fixpoint recursiveBrowse_fuel (fuel : nat) (env : Env) (url : string) (depth : Z)
  : M unit :=
  modify (emit (EvBrowse url depth)) ;;;
  if depth =? 0 then
    _ <- doRequestM env url ;; ret tt
  else
    r <- doRequestM env url ;;
    let '(content, err) := r in
    match err with
    | Some _ => modify (blacklist_url url)
    | None =>
        validLinks <- getLinks content ;;
        if len validLinks =? 0 then modify (blacklist_url url)
        else
          st <- get ;;
          n <- Intn env (GoInt.add (GoInt.sub (max_wait (viper st)) (min_wait (viper st))) 1) ;;
          st' <- get ;;
          let sleepTime := GoInt.add n (min_wait (viper st')) in
          modify (Sleep_seconds sleepTime) ;;;
          i <- Intn env (len validLinks) ;;
          next <- index validLinks i ;;
          match fuel with
          | O => fun _ => OutOfFuel
          | S fuel' => recursiveBrowse_fuel fuel' env next (GoInt.sub depth 1)
          end
    end.

(** Fuel that always suffices: the depth read as an unsigned number. *)
Definition browse_fuel (depth : Z) : nat := Z.to_nat (GoInt.unsigned depth).

(** [recursiveBrowse] on a call stack that never overflows.  The Go
    function calls itself before it returns, on a stack that the runtime
    caps: on a stack that holds [stack] nested calls the function is
    [recursiveBrowse_fuel stack], and [OutOfFuel] is then the fatal stack
    overflow of the runtime. *)
Definition recursiveBrowse (env : Env) (url : string) (depth : Z) : M unit :=
  recursiveBrowse_fuel (browse_fuel depth) env url depth.

(** ** The driver loop *)

(** One iteration of the loop of [run]. *)
Definition run_iteration (env : Env) : M unit :=
  st <- get ;;
  i <- Intn env (len (root_urls (viper st))) ;;
  randomURL <- index (root_urls (viper st)) i ;;
  st1 <- get ;;
  d <- Intn env (GoInt.add (GoInt.sub (max_depth (viper st1)) (min_depth (viper st1))) 1) ;;
  st2 <- get ;;
  let depth := GoInt.add d (min_depth (viper st2)) in
  modify (emit (EvRoot randomURL)) ;;;
  recursiveBrowse env randomURL depth ;;;
  modify (Sleep_seconds 10).

(** The first [n] iterations of the endless loop. *)
Fixpoint run (n : nat) (env : Env) : M unit :=
  match n with
  | O => ret tt
  | S n' => run_iteration env ;;; run n' env
  end.

Local Close Scope go_scope.

(** ** The link extractor as the specification words it

    An occurrence is the literal [href=], a double quote, a URL made of
    [http://] or [https://] and at least one byte, none of them a double
    quote, and a closing double quote. *)

Fixpoint quote_free (s : string) : Prop :=
  match s with
  | EmptyString => True
  | String c s' => c <> dquote /\ quote_free s'
  end.

Definition LinkURL (u : string) : Prop :=
  exists r, (u = "http://" ++ r \/ u = "https://" ++ r) /\ r <> "" /\ quote_free r.

(** The text of the occurrence that encloses [u]. *)
Definition enclosed (u : string) : string :=
  "href=" ++ String dquote (u ++ String dquote "").

Definition occurs_at_front (s u : string) : Prop :=
  LinkURL u /\ exists rest, s = enclosed u ++ rest.

(** [Extracts body links]: [links] are the URLs of the occurrences met when
    [body] is read from left to right, an occurrence being skipped as a whole
    once it is met; in order, duplicates kept. *)
Inductive Extracts : string -> list string -> Prop :=
| Extracts_end : Extracts "" []
| Extracts_skip c s links :
    (forall u, ~ occurs_at_front (String c s) u) ->
    Extracts s links ->
    Extracts (String c s) links
| Extracts_hit s u rest links :
    s = enclosed u ++ rest ->
    LinkURL u ->
    Extracts rest links ->
    Extracts s (u :: links).

(** ** Reading the events *)

(** The URLs requested, in order. *)
Fixpoint requests (tr : list Event) : list string :=
  match tr with
  | [] => []
  | EvRequest url :: tr' => url :: requests tr'
  | _ :: tr' => requests tr'
  end.

(** The depth argument of each call of [recursiveBrowse], in order. *)
Fixpoint browse_depths (tr : list Event) : list Z :=
  match tr with
  | [] => []
  | EvBrowse _ depth :: tr' => depth :: browse_depths tr'
  | _ :: tr' => browse_depths tr'
  end.

(** The bytes of all bodies read. *)
Fixpoint page_bytes (tr : list Event) : Z :=
  match tr with
  | [] => 0
  | EvResponse _ pageSize :: tr' => pageSize + page_bytes tr'
  | _ :: tr' => page_bytes tr'
  end.

(** The number of responses whose status satisfies [p]. *)
Fixpoint count_status (p : Z -> bool) (tr : list Event) : Z :=
  match tr with
  | [] => 0
  | EvResponse StatusCode _ :: tr' =>
      (if p StatusCode then 1 else 0) + count_status p tr'
  | _ :: tr' => count_status p tr'
  end.

Definition is200 (c : Z) : bool := c =? 200.
Definition not200 (c : Z) : bool := negb (c =? 200).
Definition is429 (c : Z) : bool := c =? 429.

(** The URLs browsed as followed links: every call of [recursiveBrowse]
    except the one that comes right after the choice of a root URL.
    [after_root] tells whether the last of the two events seen was the
    choice of a root. *)
Fixpoint followed_from (after_root : bool) (tr : list Event) : list string :=
  match tr with
  | [] => []
  | EvRoot _ :: tr' => followed_from true tr'
  | EvBrowse url _ :: tr' =>
      if after_root then followed_from false tr'
      else url :: followed_from false tr'
  | _ :: tr' => followed_from after_root tr'
  end.

Fixpoint flag_after (after_root : bool) (tr : list Event) : bool :=
  match tr with
  | [] => after_root
  | EvRoot _ :: tr' => flag_after true tr'
  | EvBrowse _ _ :: tr' => flag_after false tr'
  | _ :: tr' => flag_after after_root tr'
  end.

(** [chain d l]: [l] starts at [d] and each next element is the one before
    minus one, in Go's arithmetic. *)
Fixpoint chain (d : Z) (l : list Z) : Prop :=
  match l with
  | [] => True
  | x :: l' => x = d /\ chain (GoInt.sub d 1) l'
  end.

(** The integers of the state are values of their Go types. *)
Definition wf_state (st : State) : Prop :=
  GoInt.in_range (dataMeter st) /\ GoInt.in_range (goodRequests st) /\
  GoInt.in_range (badRequests st) /\
  GoInt.in_range (min_wait (viper st)) /\ GoInt.in_range (max_wait (viper st)).

(** [Frame st st' new]: what any part of the process can have done between
    the states [st] and [st'], [new] being the events in between. *)
Definition Frame (st st' : State) (new : list Event) : Prop :=
  trace st' = (trace st ++ new)%list /\
  dataMeter st' = GoInt.wrap (dataMeter st + page_bytes new) /\
  goodRequests st' = GoInt.wrap (goodRequests st + count_status is200 new) /\
  badRequests st' = GoInt.wrap (badRequests st + count_status not200 new) /\
  min_wait (viper st') = GoInt.wrap (min_wait (viper st) + 10 * count_status is429 new) /\
  max_wait (viper st') = GoInt.wrap (max_wait (viper st) + 10 * count_status is429 new) /\
  min_depth (viper st') = min_depth (viper st) /\
  max_depth (viper st') = max_depth (viper st) /\
  root_urls (viper st') = root_urls (viper st) /\
  user_agent (viper st') = user_agent (viper st) /\
  (exists added, blacklist (viper st') = (blacklist (viper st) ++ added)%list) /\
  nreq st' = (nreq st + List.length (requests new))%nat /\
  0 <= page_bytes new.

(** The states an outcome can end in. *)
Definition ends_in {A} (o : Outcome A) (st' : State) : Prop :=
  match o with
  | Ok _ st => st = st'
  | Panic st => st = st'
  | OutOfFuel => False
  end.

(** The events of one call of [doRequest] after the request itself. *)
Definition exchange_events (x : Exchange) : list Event :=
  match x with
  | NewRequestError => []
  | TransportError => [EvSleep (GoInt.mul 30 Second)]
  | ReadError _ => []
  | Response StatusCode content =>
      [EvResponse StatusCode (Z.of_nat (String.length content))]
  end.

(** The exchange that a call of [doRequest] for [url] in state [st] gets. *)
Definition exchange_of (env : Env) (url : string) (st : State) : Exchange :=
  http env (nreq st) url (user_agent (viper st)).

(** Events that are neither a request nor a call of [recursiveBrowse] nor
    the choice of a root. *)
Definition Quiet (q : list Event) : Prop :=
  forall b, requests q = [] /\ browse_depths q = [] /\
            followed_from b q = [] /\ flag_after b q = b.

(** What one call of [recursiveBrowse url depth] started in [st] has done
    when it ends, or panics, in [st']. *)
Definition BrowsePost (st : State) (url : string) (depth : Z) (st' : State) : Prop :=
  exists rest,
    Frame st st' (EvBrowse url depth :: rest) /\
    chain depth (browse_depths (EvBrowse url depth :: rest)) /\
    (List.length (requests rest) <= S (browse_fuel depth))%nat /\
    List.length (requests rest) =
      List.length (browse_depths (EvBrowse url depth :: rest)) /\
    flag_after false rest = false /\
    (forall v, In v (followed_from false rest) ->
               isBlacklisted_in (blacklist (viper st)) v = false).

(** What the driver loop has done between [st] and [st']: a frame, and
    every link followed was not blacklisted when the loop was in [st]. *)
Definition RunPost (st st' : State) : Prop :=
  exists new,
    Frame st st' new /\
    forall b v, In v (followed_from b new) ->
                isBlacklisted_in (blacklist (viper st)) v = false.

(** ** The operations of the core *)

(** [core_step env st st']: an operation of the core, or several in a row,
    started in [st], ends (returns or panics) in [st']. *)
Inductive core_step (env : Env) : State -> State -> Prop :=
| step_doRequest url st :
    core_step env st (snd (doRequest env url st))
| step_getLinks content st st' :
    ends_in (getLinks content st) st' -> core_step env st st'
| step_recursiveBrowse url depth st st' :
    GoInt.in_range depth ->
    ends_in (recursiveBrowse env url depth st) st' -> core_step env st st'
| step_run n st st' :
    ends_in (run n env st) st' -> core_step env st st'
| step_seq st st1 st' :
    core_step env st st1 -> core_step env st1 st' -> core_step env st st'.

(** ** Sample configurations, pages and networks *)

(** The sample configuration file of the README. *)
Definition sample_viper : Viper :=
  mkViper false 10 3 10 5
          ["https://www.example.com"; "https://www.another-example.com"]
          ["facebook.com"; "pinterest.com"]
          "Mozilla/5.0".

(** The process as it starts: counters at zero, nothing done yet. *)
Definition initial_state (v : Viper) : State := mkState 0 0 0 v 0 0 [].

Definition sample_state : State := initial_state sample_viper.

(** A page with two absolute links, one of them twice, a relative link, a
    mail link, a script link and an occurrence that is never closed. *)
Definition sample_page : string :=
  "<a " ++ enclosed "http://a.example/x" ++ ">x</a>" ++
  "<a href=" ++ String dquote ("/relative" ++ String dquote ">r</a>") ++
  "<a " ++ enclosed "https://facebook.com/y" ++ ">y</a>" ++
  "<a href=" ++ String dquote ("mailto:me@a.example" ++ String dquote ">m</a>") ++
  "<a href=" ++ String dquote ("javascript:void(0)" ++ String dquote ">j</a>") ++
  "<a " ++ enclosed "http://a.example/x" ++ ">x</a>" ++
  "<a href=" ++ String dquote "http://never.closed/".

(** A page whose only link is blacklisted in [sample_viper]. *)
Definition dead_end_page : string :=
  "<a " ++ enclosed "https://facebook.com/y" ++ ">y</a>".

(** A network that is down: every exchange fails in the transport. *)
Definition env_down : Env := mkEnv (fun _ _ _ => TransportError) (fun _ => 0).

(** A network that rate-limits every request. *)
Definition env_429 : Env :=
  mkEnv (fun _ _ _ => Response 429 "slow down") (fun _ => 0).

(** A network that answers every request with a page of one byte. *)
Definition env_one_byte : Env := mkEnv (fun _ _ _ => Response 200 "x") (fun _ => 0).

(** A network that serves [sample_page] for every URL. *)
Definition env_sample : Env :=
  mkEnv (fun _ _ _ => Response 200 sample_page) (fun n => Z.of_nat n).

(** A network that serves [dead_end_page] for every URL. *)
Definition env_dead_end : Env :=
  mkEnv (fun _ _ _ => Response 200 dead_end_page) (fun _ => 0).

(** One root, depth always 1. *)
Definition one_root_viper : Viper :=
  mkViper false 1 1 10 5 ["http://a.example/"] [] "Mozilla/5.0".

(** A configuration whose maximum wait is the largest [int]. *)
Definition max_wait_viper : Viper :=
  mkViper false 10 3 GoInt.MaxInt 5 ["https://www.example.com"] [] "Mozilla/5.0".

(** A process whose data meter has reached the largest [int64]. *)
Definition full_meter_state : State :=
  mkState GoInt.MaxInt 0 0 sample_viper 0 0 [].

(** One root, depth always 0: every iteration of the driver loop is one
    request. *)
Definition zero_depth_viper : Viper :=
  mkViper false 0 0 10 5 ["http://a.example/"] [] "Mozilla/5.0".

(** The state after one iteration of the driver loop under
    [zero_depth_viper] and [env_one_byte]. *)
Definition one_byte_next (st : State) : State :=
  mkState (GoInt.add (dataMeter st) 1) (GoInt.add (goodRequests st) 1)
          (badRequests st) (viper st) (S (nreq st)) (S (S (ndraw st)))
          (trace st ++ [EvRoot "http://a.example/"; EvBrowse "http://a.example/" 0;
                        EvRequest "http://a.example/"; EvResponse 200 1;
                        EvSleep (GoInt.mul 10 Second)]).

Fixpoint one_byte_after (n : nat) (st : State) : State :=
  match n with
  | O => st
  | S n' => one_byte_after n' (one_byte_next st)
  end.

(** ** The size printer

    [hrBytes] picks a unit for a byte count and hands the count, the divisor
    and the letter of the unit to [fmt.Sprintf].  The model stops there: the
    rendering of the quotient as a [float64] is not part of it. *)

Module HrBytes.

Inductive HumanSize : Type :=
| PlainBytes (bytes : Z)                       (* the format with B alone *)
| ScaledBytes (bytes div : Z) (unit : ascii).  (* bytes / div, then the unit *)

(** What a pure function gives: a value, a run-time panic, or a model that
    ran out of fuel. *)
Inductive Pure (A : Type) : Type :=
| Done (a : A)
| Panics
| NoFuel.
Arguments Done {A} a.
Arguments Panics {A}.
Arguments NoFuel {A}.

Definition unit : Z := 1000.

(** The loop of [hrBytes]: [n] is divided by [unit] (Go's division rounds
    towards zero) until it is below [unit]; one unit of fuel per turn. *)
Fixpoint hrBytes_loop (fuel : nat) (n div exp : Z) : option (Z * Z) :=
  if n >=? unit then
    match fuel with
    | O => None
    | S fuel' =>
        hrBytes_loop fuel' (Z.quot n unit) (GoInt.mul div unit) (GoInt.add exp 1)
    end
  else Some (div, exp).

(** Indexing a string: out of range is a run-time panic. *)
Definition string_index (s : string) (i : Z) : option ascii :=
  if i <? 0 then None else String.get (Z.to_nat i) s.

(** Each turn of the loop divides by 1000, so 64 turns are more than an
    [int64] can take. *)
Definition hrBytes_fuel : nat := 64.

Definition hrBytes (bytes : Z) : Pure HumanSize :=
  if bytes <? unit then Done (PlainBytes bytes)
  else
    match hrBytes_loop hrBytes_fuel (Z.quot bytes unit) unit 0 with
    | None => NoFuel
    | Some (div, exp) =>
        match string_index "KMGTPE" exp with
        | Some c => Done (ScaledBytes bytes div c)
        | None => Panics
        end
    end.

End HrBytes.

(** ** Draws and hops *)

(** The state after one more random draw. *)
Definition count_draw (st : State) : State :=
  mkState (dataMeter st) (goodRequests st) (badRequests st) (viper st)
          (nreq st) (S (ndraw st)) (trace st).

(** The argument of the draw of the sleep time, and of the draw of the depth. *)
Definition wait_span (st : State) : Z :=
  GoInt.add (GoInt.sub (max_wait (viper st)) (min_wait (viper st))) 1.

Definition depth_span (st : State) : Z :=
  GoInt.add (GoInt.sub (max_depth (viper st)) (min_depth (viper st))) 1.

(** The sleep time that [recursiveBrowse] draws in [st1], and the state in
    which it calls itself: two draws and the sleep later. *)
Definition hop_sleepTime (env : Env) (st1 : State) : Z :=
  GoInt.add (rand_src env (ndraw st1) mod wait_span st1) (min_wait (viper st1)).

Definition hop_state (env : Env) (st1 : State) : State :=
  count_draw (Sleep_seconds (hop_sleepTime env st1) (count_draw st1)).

(** The index of the link that [recursiveBrowse] picks after the sleep. *)
Definition hop_index (env : Env) (st1 : State) (validLinks : list string) : Z :=
  rand_src env (S (ndraw st1)) mod len validLinks.

(** A network on which every exchange gives a page with a link that the
    blacklist [bl] lets through. *)
Definition AlwaysLinks (env : Env) (bl : list string) : Prop :=
  forall n url ua,
    exists StatusCode content urls u,
      http env n url ua = Response StatusCode content /\
      Extracts content urls /\ In u urls /\ isBlacklisted_in bl u = false.

(** A configuration as the flags and a configuration file give it: roots to
    start from, and bounds in order and apart by less than the largest
    [int]. *)
Definition sane_config (st : State) : Prop :=
  root_urls (viper st) <> [] /\
  GoInt.in_range (min_depth (viper st)) /\ GoInt.in_range (max_depth (viper st)) /\
  min_depth (viper st) <= max_depth (viper st) /\
  max_depth (viper st) - min_depth (viper st) < GoInt.MaxInt /\
  min_wait (viper st) <= max_wait (viper st) /\
  max_wait (viper st) - min_wait (viper st) < GoInt.MaxInt.

(** The flags alone, with no configuration file: the defaults of the
    bounds, and no root URL. *)
Definition flags_only_viper : Viper := mkViper false 10 3 10 5 [] [] "".

(** Depth bounds in the wrong order. *)
Definition reversed_depths_viper : Viper :=
  mkViper false 3 10 10 5 ["https://www.example.com"] [] "Mozilla/5.0".

(** ** The driver loop on a bounded call stack *)

(** The statements of [run_iteration], the traversal being the one on a call
    stack that holds [stack] nested calls of [recursiveBrowse]; here
    [OutOfFuel] is the stack overflow that kills the process. *)
Definition run_iteration_on (stack : nat) (env : Env) : M unit :=
  bind get (fun st =>
  bind (Intn env (len (root_urls (viper st)))) (fun i =>
  bind (index (root_urls (viper st)) i) (fun randomURL =>
  bind get (fun st1 =>
  bind (Intn env (GoInt.add (GoInt.sub (max_depth (viper st1))
                                       (min_depth (viper st1))) 1)) (fun d =>
  bind get (fun st2 =>
  let depth := GoInt.add d (min_depth (viper st2)) in
  bind (modify (emit (EvRoot randomURL))) (fun _ =>
  bind (recursiveBrowse_fuel stack env randomURL depth) (fun _ =>
  modify (Sleep_seconds 10))))))))).

Fixpoint run_on (stack n : nat) (env : Env) : M unit :=
  match n with
  | O => ret tt
  | S n' => bind (run_iteration_on stack env) (fun _ => run_on stack n' env)
  end.

Definition panics {A} (o : Outcome A) : Prop :=
  match o with
  | Panic _ => True
  | _ => False
  end.

(** * Properties *)

(** ** Machine integers *)

Lemma wrap_in_range (z : Z) : GoInt.in_range (GoInt.wrap z).
Proof.
  unfold GoInt.in_range, GoInt.wrap, GoInt.MinInt, GoInt.MaxInt, GoInt.modulus, GoInt.bits.
  pose proof (Z.mod_pos_bound (z + 2 ^ (64 - 1)) (2 ^ 64) ltac:(lia)).
  change (2 ^ 64) with (2 * 2 ^ (64 - 1)) in *. lia.
Qed.

Lemma wrap_small (z : Z) : GoInt.in_range z -> GoInt.wrap z = z.
Proof.
  unfold GoInt.in_range, GoInt.wrap, GoInt.MinInt, GoInt.MaxInt, GoInt.modulus, GoInt.bits.
  intros H. rewrite Z.mod_small; [lia|].
  change (2 ^ 64) with (2 * 2 ^ (64 - 1)). lia.
Qed.

(** ** Byte strings *)

Lemma sapp_assoc (a b c : string) : (a ++ b) ++ c = a ++ (b ++ c).
Proof. induction a as [|x a IH]; simpl; [reflexivity | now rewrite IH]. Qed.

Lemma sapp_nil_r (a : string) : a ++ "" = a.
Proof. induction a as [|x a IH]; simpl; [reflexivity | now rewrite IH]. Qed.

Lemma slength_app (a b : string) :
  String.length (a ++ b) = (String.length a + String.length b)%nat.
Proof. induction a as [|x a IH]; simpl; [reflexivity | now rewrite IH]. Qed.

Lemma strip_prefix_iff (p s r : string) :
  strip_prefix p s = Some r <-> s = p ++ r.
Proof.
  revert s. induction p as [|a p IH]; intros s; simpl.
  - split; [intros [= ->] | intros ->]; reflexivity.
  - destruct s as [|b s].
    + split; discriminate.
    + destruct (Ascii.eqb_spec a b) as [->|Hne].
      * rewrite IH. split; [intros -> | intros [= ->]]; reflexivity.
      * split; [discriminate | intros [= E _]; congruence].
Qed.

Lemma strip_prefix_app (p r : string) : strip_prefix p (p ++ r) = Some r.
Proof. now apply strip_prefix_iff. Qed.

Lemma Contains_iff (s substr : string) :
  Contains s substr = true <-> Substring substr s.
Proof.
  induction s as [|c s IH]; simpl.
  - destruct (strip_prefix substr "") as [r|] eqn:E.
    + apply strip_prefix_iff in E. split; [|reflexivity].
      intros _. exists "", r. exact E.
    + split; [discriminate|]. intros (pre & post & H).
      destruct pre; [|discriminate]. simpl in H.
      apply strip_prefix_iff in H. congruence.
  - destruct (strip_prefix substr (String c s)) as [r|] eqn:E.
    + apply strip_prefix_iff in E. split; [|reflexivity].
      intros _. exists "", r. exact E.
    + rewrite IH. split.
      * intros (pre & post & ->). exists (String c pre), post. reflexivity.
      * intros (pre & post & H). destruct pre as [|x pre].
        -- simpl in H. apply strip_prefix_iff in H. congruence.
        -- injection H as _ ->. exists pre, post. reflexivity.
Qed.

Lemma isBlacklisted_in_iff (entries : list string) (link : string) :
  isBlacklisted_in entries link = true <->
  exists blacklisted, In blacklisted entries /\ Substring blacklisted link.
Proof.
  induction entries as [|b entries IH]; simpl.
  - split; [discriminate | intros (x & [] & _)].
  - destruct (Contains link b) eqn:E.
    + split; [|reflexivity]. intros _. exists b. split; [now left|].
      now apply Contains_iff.
    + rewrite IH. split.
      * intros (x & Hin & Hs). exists x. split; [now right | exact Hs].
      * intros (x & [->|Hin] & Hs).
        -- apply Contains_iff in Hs. congruence.
        -- exists x. now split.
Qed.

Lemma isBlacklisted_in_app (l1 l2 : list string) (link : string) :
  isBlacklisted_in (l1 ++ l2) link =
  isBlacklisted_in l1 link || isBlacklisted_in l2 link.
Proof.
  induction l1 as [|b l1 IH]; simpl; [reflexivity|].
  destruct (Contains link b); [reflexivity | exact IH].
Qed.

Lemma Substring_refl (s : string) : Substring s s.
Proof. exists "", "". simpl. now rewrite sapp_nil_r. Qed.

(** ** The link pattern *)

Lemma span_nonquote_sound (s u r : string) :
  LinkRegex.span_nonquote s = (u, r) ->
  s = u ++ r /\ quote_free u /\ (r = "" \/ exists r', r = String dquote r').
Proof.
  revert u r. induction s as [|c s IH]; intros u r; simpl.
  - intros [= <- <-]. simpl. intuition.
  - unfold is_dquote. destruct (Ascii.eqb_spec c dquote) as [->|Hne].
    + intros [= <- <-]. simpl. split; [reflexivity|]. split; [exact I|].
      right. now exists s.
    + destruct (LinkRegex.span_nonquote s) as [u0 r0].
      intros [= <- <-]. destruct (IH u0 r0 eq_refl) as (-> & Hq & Hr).
      simpl. intuition.
Qed.

Lemma span_nonquote_app (u rest : string) :
  quote_free u ->
  LinkRegex.span_nonquote (u ++ String dquote rest) = (u, String dquote rest).
Proof.
  induction u as [|c u IH]; simpl.
  - intros _. reflexivity.
  - intros [Hc Hu]. unfold is_dquote.
    destruct (Ascii.eqb_spec c dquote) as [E|_]; [contradiction|].
    now rewrite (IH Hu).
Qed.

Lemma match_tail_sound (s m rest : string) :
  LinkRegex.match_tail s = Some (m, rest) ->
  exists u, u <> "" /\ quote_free u /\
            m = "://" ++ u ++ String dquote "" /\ s = m ++ rest.
Proof.
  unfold LinkRegex.match_tail.
  destruct (strip_prefix "://" s) as [r|] eqn:E; [|discriminate].
  apply strip_prefix_iff in E. subst s.
  destruct (LinkRegex.span_nonquote r) as [u r2] eqn:Es.
  apply span_nonquote_sound in Es. destruct Es as (-> & Hq & Hr).
  destruct u as [|c u]; [discriminate|].
  destruct r2 as [|c2 r2]; [discriminate|].
  unfold is_dquote. destruct (Ascii.eqb_spec c2 dquote) as [->|]; [|discriminate].
  intros [= <- <-]. exists (String c u).
  split; [discriminate|]. split; [exact Hq|]. split; [reflexivity|].
  simpl. now rewrite sapp_assoc.
Qed.

Lemma match_tail_app (u rest : string) :
  u <> "" -> quote_free u ->
  LinkRegex.match_tail ("://" ++ u ++ String dquote rest)
  = Some ("://" ++ u ++ String dquote "", rest).
Proof.
  intros Hne Hq. unfold LinkRegex.match_tail.
  rewrite strip_prefix_app, (span_nonquote_app _ _ Hq).
  destruct u; [congruence|].
  unfold is_dquote. now rewrite Ascii.eqb_refl.
Qed.

Ltac str_eq :=
  unfold enclosed, LinkRegex.href_open; simpl;
  repeat (rewrite !sapp_assoc; simpl); reflexivity.

Lemma match_here_sound (s m rest : string) :
  LinkRegex.match_here s = Some (m, rest) ->
  exists u, LinkURL u /\ m = enclosed u /\ s = m ++ rest.
Proof.
  unfold LinkRegex.match_here.
  destruct (strip_prefix LinkRegex.href_open s) as [r|] eqn:E; [|discriminate].
  apply strip_prefix_iff in E. subst s.
  destruct (strip_prefix "s" r) as [r'|] eqn:Es.
  - apply strip_prefix_iff in Es. subst r.
    destruct (LinkRegex.match_tail r') as [[m' rest']|] eqn:Et.
    + intros [= <- <-].
      destruct (match_tail_sound _ _ _ Et) as (u & Hne & Hq & -> & ->).
      exists ("https://" ++ u). split; [|split].
      * exists u. auto.
      * str_eq.
      * str_eq.
    + destruct (LinkRegex.match_tail ("s" ++ r')) as [[m' rest']|] eqn:Et2;
        [|discriminate].
      apply match_tail_sound in Et2. destruct Et2 as (u & _ & _ & -> & H).
      discriminate H.
  - destruct (LinkRegex.match_tail r) as [[m' rest']|] eqn:Et; [|discriminate].
    intros [= <- <-].
    destruct (match_tail_sound _ _ _ Et) as (u & Hne & Hq & -> & ->).
    exists ("http://" ++ u). split; [|split].
    + exists u. auto.
    + str_eq.
    + str_eq.
Qed.

Lemma match_here_complete (u rest : string) :
  LinkURL u ->
  LinkRegex.match_here (enclosed u ++ rest) = Some (enclosed u, rest).
Proof.
  intros (r & [-> | ->] & Hne & Hq); unfold LinkRegex.match_here.
  - replace (enclosed ("http://" ++ r) ++ rest)
      with (LinkRegex.href_open ++ "://" ++ r ++ String dquote rest)
      by str_eq.
    rewrite strip_prefix_app.
    change (strip_prefix "s" ("://" ++ r ++ String dquote rest)) with (@None string).
    rewrite (match_tail_app _ _ Hne Hq). f_equal; f_equal; try str_eq.
  - replace (enclosed ("https://" ++ r) ++ rest)
      with (LinkRegex.href_open ++ "s" ++ "://" ++ r ++ String dquote rest)
      by str_eq.
    rewrite strip_prefix_app, strip_prefix_app.
    rewrite (match_tail_app _ _ Hne Hq). f_equal; f_equal; try str_eq.
Qed.

Lemma match_here_none (s : string) :
  LinkRegex.match_here s = None -> forall u, ~ occurs_at_front s u.
Proof.
  intros Hn u (Hu & rest & ->).
  rewrite (match_here_complete _ rest Hu) in Hn. discriminate.
Qed.

Lemma enclosed_length (u : string) :
  String.length (enclosed u) = (7 + String.length u)%nat.
Proof. unfold enclosed. simpl. rewrite slength_app. simpl. lia. Qed.

Lemma match_here_shorter (s m rest : string) :
  LinkRegex.match_here s = Some (m, rest) ->
  (String.length rest < String.length s)%nat.
Proof.
  intros H. destruct (match_here_sound _ _ _ H) as (u & _ & -> & ->).
  rewrite slength_app, enclosed_length. lia.
Qed.

Lemma find_all_fuel (n1 n2 : nat) (s : string) :
  (String.length s < n1)%nat -> (String.length s < n2)%nat ->
  LinkRegex.find_all n1 s = LinkRegex.find_all n2 s.
Proof.
  revert n2 s. induction n1 as [|n1 IH]; intros n2 s H1 H2; [lia|].
  destruct n2 as [|n2]; [lia|]. simpl.
  destruct (LinkRegex.match_here s) as [[m rest]|] eqn:E.
  - apply match_here_shorter in E. f_equal. apply IH; lia.
  - destruct s as [|c s]; [reflexivity|]. simpl in *. apply IH; lia.
Qed.

(** The search, unfolded once: it does not depend on the fuel. *)
Lemma FindAllString_eq (s : string) :
  LinkRegex.FindAllString s =
  match LinkRegex.match_here s with
  | Some (m, rest) => m :: LinkRegex.FindAllString rest
  | None =>
      match s with
      | EmptyString => []
      | String _ s' => LinkRegex.FindAllString s'
      end
  end.
Proof.
  unfold LinkRegex.FindAllString at 1. simpl.
  destruct (LinkRegex.match_here s) as [[m rest]|] eqn:E.
  - apply match_here_shorter in E. f_equal.
    apply find_all_fuel; lia.
  - destruct s as [|c s]; [reflexivity|]. reflexivity.
Qed.

Lemma substring_0_app (u r : string) :
  substring 0 (String.length u) (u ++ r) = u.
Proof.
  induction u as [|c u IH]; simpl.
  - now destruct r.
  - now rewrite IH.
Qed.

(** The slice of [getLinks] takes the URL out of an occurrence, in bounds. *)
Lemma slice_enclosed (u : string) :
  slice (enclosed u) 6 (Z.of_nat (String.length (enclosed u)) - 1) = Some u.
Proof.
  unfold slice. rewrite enclosed_length.
  replace (Z.of_nat (7 + String.length u) - 1) with (6 + Z.of_nat (String.length u)) by lia.
  replace (6 + Z.of_nat (String.length u) - 6) with (Z.of_nat (String.length u)) by lia.
  rewrite Nat2Z.id.
  replace ((0 <=? 6) && (6 <=? 6 + Z.of_nat (String.length u))
           && (6 + Z.of_nat (String.length u) <=? Z.of_nat (7 + String.length u)))
    with true
    by (symmetry; rewrite !andb_true_iff, !Z.leb_le; lia).
  f_equal. change (Z.to_nat 6) with 6%nat. unfold enclosed. simpl.
  apply substring_0_app.
Qed.

(** The matches of the pattern are the occurrences that [Extracts] meets. *)
Lemma FindAllString_Extracts (s : string) :
  exists urls,
    LinkRegex.FindAllString s = map enclosed urls /\ Extracts s urls.
Proof.
  remember (String.length s) as n eqn:Hn. revert s Hn.
  induction n as [n IH] using lt_wf_ind. intros s ->.
  rewrite FindAllString_eq.
  destruct (LinkRegex.match_here s) as [[m rest]|] eqn:E.
  - pose proof (match_here_shorter _ _ _ E) as Hlt.
    destruct (match_here_sound _ _ _ E) as (u & Hu & -> & ->).
    destruct (IH _ Hlt rest eq_refl) as (urls & -> & Hex).
    exists (u :: urls). split; [reflexivity|].
    now apply Extracts_hit with (rest := rest).
  - destruct s as [|c s].
    + exists []. split; [reflexivity | constructor].
    + destruct (IH (String.length s) (Nat.lt_succ_diag_r _) s eq_refl)
        as (urls & -> & Hex).
      exists urls. split; [reflexivity|].
      apply Extracts_skip; [|exact Hex]. now apply match_here_none.
Qed.

Lemma getLinks_loop_enclosed (st : State) (urls validLinks : list string) :
  getLinks_loop st (map enclosed urls) validLinks =
  Some (validLinks ++ filter (fun u => negb (isBlacklisted u st)) urls)%list.
Proof.
  revert validLinks. induction urls as [|u urls IH]; intros validLinks; simpl.
  - now rewrite app_nil_r.
  - rewrite slice_enclosed.
    destruct (negb (isBlacklisted u st)); rewrite IH; [|reflexivity].
    now rewrite <- app_assoc.
Qed.

(** [getLinks] never panics, leaves the state as it is, and returns the
    extracted URLs that are not blacklisted. *)
Lemma getLinks_spec (content : string) (st : State) :
  exists urls,
    Extracts content urls /\
    getLinks content st =
    Ok (filter (fun u => negb (isBlacklisted u st)) urls) st.
Proof.
  destruct (FindAllString_Extracts content) as (urls & E & Hex).
  exists urls. split; [exact Hex|].
  unfold getLinks. now rewrite E, getLinks_loop_enclosed.
Qed.

Lemma LinkURL_quote_free (u : string) : LinkURL u -> quote_free u.
Proof.
  intros (r & [-> | ->] & _ & Hq); simpl; repeat split; try discriminate; exact Hq.
Qed.

Lemma quote_free_unique (u u' rest rest' : string) :
  quote_free u -> quote_free u' ->
  u ++ String dquote rest = u' ++ String dquote rest' ->
  u = u' /\ rest = rest'.
Proof.
  revert u'. induction u as [|c u IH]; intros [|c' u'] Hq Hq'; simpl in *.
  - intros [= ->]. now split.
  - intros [= E _]. destruct Hq' as [Hc _]. congruence.
  - intros [= E _]. destruct Hq as [Hc _]. congruence.
  - intros [= -> E]. destruct Hq as [_ Hq]. destruct Hq' as [_ Hq'].
    destruct (IH u' Hq Hq' E) as [-> ->]. now split.
Qed.

Lemma enclosed_unique (u u' rest rest' : string) :
  LinkURL u -> LinkURL u' ->
  enclosed u ++ rest = enclosed u' ++ rest' -> u = u' /\ rest = rest'.
Proof.
  intros Hu Hu'. unfold enclosed. simpl. rewrite !sapp_assoc. simpl.
  intros [= E]. apply quote_free_unique in E; auto using LinkURL_quote_free.
Qed.

Lemma Extracts_functional (s : string) (l1 l2 : list string) :
  Extracts s l1 -> Extracts s l2 -> l1 = l2.
Proof.
  intros H1. revert l2.
  induction H1 as [|c s links Hno _ IH|s u rest links Hs Hu _ IH]; intros l2 H2.
  - inversion H2 as [| |s' u rest links E]; subst; [reflexivity|].
    discriminate E.
  - inversion H2 as [|c' s' links' Hno' H2'|s' u rest links' E Hu H2']; subst.
    + now apply IH.
    + exfalso. apply (Hno u). split; [exact Hu|]. now exists rest.
  - destruct H2 as [|c' s' links' Hno' H2'|s' u' rest' links' E Hu' H2'].
    + discriminate Hs.
    + exfalso. apply (Hno' u). split; [exact Hu|]. now exists rest.
    + rewrite Hs in E.
      destruct (enclosed_unique _ _ _ _ Hu Hu' E) as [-> ->].
      f_equal. now apply IH.
Qed.

Lemma Extracts_LinkURL (s : string) (links : list string) :
  Extracts s links -> Forall LinkURL links.
Proof. induction 1; auto. Qed.

Lemma Extracts_no_occurrence (s : string) (links : list string) :
  Extracts s links ->
  (forall pre suf u, s = pre ++ suf -> ~ occurs_at_front suf u) ->
  links = [].
Proof.
  induction 1 as [|c s links Hno _ IH|s u rest links -> Hu _ IH]; intros Hnone.
  - reflexivity.
  - apply IH. intros pre suf u ->. apply (Hnone (String c pre) suf u). reflexivity.
  - exfalso. apply (Hnone "" (enclosed u ++ rest) u eq_refl).
    split; [exact Hu|]. now exists rest.
Qed.

(** ** Events and frames *)

Lemma wrap_add_l (a b : Z) : GoInt.wrap (GoInt.wrap a + b) = GoInt.wrap (a + b).
Proof.
  unfold GoInt.wrap.
  replace ((a + 2 ^ (GoInt.bits - 1)) mod GoInt.modulus - 2 ^ (GoInt.bits - 1)
           + b + 2 ^ (GoInt.bits - 1))
    with ((a + 2 ^ (GoInt.bits - 1)) mod GoInt.modulus + b) by lia.
  rewrite Zplus_mod_idemp_l. f_equal. f_equal. lia.
Qed.

Lemma requests_app (a b : list Event) : requests (a ++ b) = (requests a ++ requests b)%list.
Proof.
  induction a as [|e a IH]; [reflexivity|].
  destruct e; simpl; now rewrite IH.
Qed.

Lemma browse_depths_app (a b : list Event) :
  browse_depths (a ++ b) = (browse_depths a ++ browse_depths b)%list.
Proof.
  induction a as [|e a IH]; [reflexivity|].
  destruct e; simpl; now rewrite IH.
Qed.

Lemma page_bytes_app (a b : list Event) :
  page_bytes (a ++ b) = page_bytes a + page_bytes b.
Proof.
  induction a as [|e a IH]; [reflexivity|].
  destruct e; simpl; rewrite ?IH; lia.
Qed.

Lemma count_status_app (p : Z -> bool) (a b : list Event) :
  count_status p (a ++ b) = count_status p a + count_status p b.
Proof.
  induction a as [|e a IH]; [reflexivity|].
  destruct e; simpl; rewrite ?IH; lia.
Qed.

Lemma count_status_nonneg (p : Z -> bool) (tr : list Event) : 0 <= count_status p tr.
Proof.
  induction tr as [|e tr IH]; simpl; [lia|].
  destruct e; try lia. destruct (p StatusCode); lia.
Qed.

Lemma followed_from_app (b : bool) (tr1 tr2 : list Event) :
  followed_from b (tr1 ++ tr2) =
  (followed_from b tr1 ++ followed_from (flag_after b tr1) tr2)%list.
Proof.
  revert b. induction tr1 as [|e tr1 IH]; intros b; [reflexivity|].
  destruct e; simpl; rewrite ?IH; try reflexivity.
  destruct b; reflexivity.
Qed.

Lemma flag_after_app (b : bool) (tr1 tr2 : list Event) :
  flag_after b (tr1 ++ tr2) = flag_after (flag_after b tr1) tr2.
Proof.
  revert b. induction tr1 as [|e tr1 IH]; intros b; [reflexivity|].
  destruct e; simpl; now rewrite ?IH.
Qed.

Lemma Frame_wf (st st' : State) (new : list Event) : Frame st st' new -> wf_state st'.
Proof.
  intros (_ & Hd & Hg & Hb & Hmin & Hmax & _). unfold wf_state.
  rewrite Hd, Hg, Hb, Hmin, Hmax. repeat split; apply wrap_in_range.
Qed.

Lemma Frame_refl (st : State) : wf_state st -> Frame st st [].
Proof.
  intros (Hd & Hg & Hb & Hmin & Hmax). unfold Frame. simpl.
  rewrite !Z.add_0_r, !wrap_small by assumption.
  rewrite app_nil_r, Nat.add_0_r. repeat split; try reflexivity; try lia.
  exists []. now rewrite app_nil_r.
Qed.

Lemma Frame_trans (st st1 st2 : State) (n1 n2 : list Event) :
  Frame st st1 n1 -> Frame st1 st2 n2 -> Frame st st2 (n1 ++ n2).
Proof.
  intros (Ht & Hd & Hg & Hb & Hmin & Hmax & Hnd & Hxd & Hr & Hu & (a1 & Hbl) & Hn & Hp)
         (Ht' & Hd' & Hg' & Hb' & Hmin' & Hmax' & Hnd' & Hxd' & Hr' & Hu' & (a2 & Hbl') & Hn' & Hp').
  unfold Frame.
  rewrite Ht', Ht, Hd', Hd, Hg', Hg, Hb', Hb, Hmin', Hmin, Hmax', Hmax.
  rewrite Hnd', Hnd, Hxd', Hxd, Hr', Hr, Hu', Hu, Hbl', Hbl, Hn', Hn.
  rewrite !wrap_add_l, page_bytes_app, !count_status_app, requests_app, length_app.
  rewrite <- !app_assoc.
  repeat split; try lia; try (f_equal; lia).
  exists (a1 ++ a2)%list. reflexivity.
Qed.

(** A step that leaves every integer of the state alone and appends events
    that are not responses. *)
Lemma Frame_quiet (st st' : State) (new : list Event) :
  wf_state st ->
  trace st' = (trace st ++ new)%list ->
  page_bytes new = 0 -> (forall p, count_status p new = 0) ->
  dataMeter st' = dataMeter st -> goodRequests st' = goodRequests st ->
  badRequests st' = badRequests st ->
  min_wait (viper st') = min_wait (viper st) ->
  max_wait (viper st') = max_wait (viper st) ->
  min_depth (viper st') = min_depth (viper st) ->
  max_depth (viper st') = max_depth (viper st) ->
  root_urls (viper st') = root_urls (viper st) ->
  user_agent (viper st') = user_agent (viper st) ->
  (exists added, blacklist (viper st') = (blacklist (viper st) ++ added)%list) ->
  nreq st' = (nreq st + List.length (requests new))%nat ->
  Frame st st' new.
Proof.
  intros (Hd & Hg & Hb & Hmin & Hmax) Ht Hp Hc E1 E2 E3 E4 E5 E6 E7 E8 E9 Hbl Hn.
  unfold Frame. rewrite E1, E2, E3, E4, E5, E6, E7, E8, E9.
  rewrite Hp, !Hc, Z.mul_0_r, !Z.add_0_r, !wrap_small by assumption.
  repeat split; auto; lia.
Qed.

Lemma Frame_emit (e : Event) (st : State) :
  wf_state st ->
  match e with EvResponse _ _ | EvRequest _ => False | _ => True end ->
  Frame st (emit e st) [e].
Proof.
  intros Hwf He. apply Frame_quiet; try reflexivity; try assumption.
  - destruct e; simpl; tauto.
  - intros p. destruct e; simpl; tauto.
  - exists []. simpl. now rewrite app_nil_r.
  - destruct e; simpl; try lia; tauto.
Qed.

Lemma Frame_Sleep (n : Z) (st : State) :
  wf_state st -> Frame st (Sleep_seconds n st) [EvSleep (GoInt.mul n Second)].
Proof. intros Hwf. now apply Frame_emit. Qed.

Lemma Frame_blacklist_url (url : string) (st : State) :
  wf_state st -> Frame st (blacklist_url url st) [].
Proof.
  intros Hwf. apply Frame_quiet; try reflexivity; try assumption.
  - simpl. now rewrite app_nil_r.
  - now exists [url].
  - simpl. lia.
Qed.

Lemma Frame_Intn (env : Env) (n : Z) (st : State) :
  wf_state st ->
  match Intn env n st with
  | Ok r st' => Frame st st' [] /\ 0 <= r < n /\ 0 < n /\ blacklist (viper st') = blacklist (viper st)
  | Panic st' => st' = st /\ n <= 0
  | OutOfFuel => False
  end.
Proof.
  intros Hwf. unfold Intn. destruct (Z.leb_spec n 0) as [H|H].
  - now split.
  - split; [|split; [apply Z.mod_pos_bound; lia | split; [lia | reflexivity]]].
    apply Frame_quiet; try reflexivity; try assumption.
    + simpl. now rewrite app_nil_r.
    + exists []. simpl. now rewrite app_nil_r.
    + simpl. lia.
Qed.

(** ** The fetcher *)

Lemma doRequest_trace (env : Env) (url : string) (st : State) :
  trace (snd (doRequest env url st)) =
  (trace st ++ EvRequest url :: exchange_events (exchange_of env url st))%list.
Proof.
  unfold doRequest, exchange_of.
  destruct (http env (nreq st) url (user_agent (viper st))) as [| |partial|c body];
    simpl; rewrite <- ?app_assoc; try reflexivity.
  destruct (c =? 200); simpl; [|destruct (c =? 429)]; simpl;
    now rewrite <- app_assoc.
Qed.

Lemma doRequest_blacklist (env : Env) (url : string) (st : State) :
  blacklist (viper (snd (doRequest env url st))) = blacklist (viper st).
Proof.
  unfold doRequest.
  destruct (http env (nreq st) url (user_agent (viper st))) as [| |partial|c body];
    simpl; try reflexivity.
  destruct (c =? 200); simpl; [|destruct (c =? 429)]; reflexivity.
Qed.

Lemma doRequest_Frame (env : Env) (url : string) (st : State) :
  wf_state st ->
  Frame st (snd (doRequest env url st))
        (EvRequest url :: exchange_events (exchange_of env url st)).
Proof.
  intros Hwf. pose proof Hwf as (Hd & Hg & Hb & Hmin & Hmax).
  pose proof (doRequest_trace env url st) as Ht.
  pose proof (doRequest_blacklist env url st) as Hbl.
  revert Ht Hbl. unfold doRequest, exchange_of.
  destruct (http env (nreq st) url (user_agent (viper st))) as [| |partial|c body];
    intros Ht Hbl.
  1-3: apply Frame_quiet; try reflexivity; try assumption;
       [exists []; now rewrite app_nil_r | simpl; lia].
  unfold Frame. split; [exact Ht|]. simpl exchange_events.
  unfold is200, not200, is429. simpl page_bytes. simpl count_status. simpl requests.
  assert (Hfin : (exists added : list string,
                     blacklist (viper st) = (blacklist (viper st) ++ added)%list) /\
                 S (nreq st) = (nreq st + 1)%nat /\
                 0 <= Z.of_nat (String.length body)).
  { split; [|lia]. exists []. now rewrite app_nil_r. }
  destruct (Z.eqb_spec c 200) as [->|H200];
    [|destruct (Z.eqb_spec c 429) as [->|H429]]; simpl;
    rewrite ?Z.add_0_r, ?Z.mul_0_r, ?Z.add_0_r, ?(wrap_small _ Hg),
      ?(wrap_small _ Hb), ?(wrap_small _ Hmin), ?(wrap_small _ Hmax);
    unfold GoInt.add; repeat (split; [reflexivity|]); exact Hfin.
Qed.

Lemma exchange_events_quiet (x : Exchange) (b : bool) :
  requests (exchange_events x) = [] /\
  browse_depths (exchange_events x) = [] /\
  followed_from b (exchange_events x) = [] /\
  flag_after b (exchange_events x) = b.
Proof. destruct x; simpl; auto. Qed.

(** ** The traversal engine *)

(** [recursiveBrowse], with the states between its statements written out. *)
Lemma browse_unfold (fuel : nat) (env : Env) (url : string) (depth : Z) (st : State) :
  recursiveBrowse_fuel fuel env url depth st =
  let st0 := emit (EvBrowse url depth) st in
  let r := doRequest env url st0 in
  let st1 := snd r in
  if depth =? 0 then Ok tt st1
  else
    match snd (fst r) with
    | Some _ => Ok tt (blacklist_url url st1)
    | None =>
        match getLinks (fst (fst r)) st1 with
        | Ok validLinks st2 =>
            if len validLinks =? 0 then Ok tt (blacklist_url url st2)
            else
              match Intn env (GoInt.add (GoInt.sub (max_wait (viper st2))
                                                   (min_wait (viper st2))) 1) st2 with
              | Ok n st3 =>
                  let st4 := Sleep_seconds (GoInt.add n (min_wait (viper st3))) st3 in
                  match Intn env (len validLinks) st4 with
                  | Ok i st5 =>
                      match index validLinks i st5 with
                      | Ok next st6 =>
                          match fuel with
                          | O => OutOfFuel
                          | S fuel' =>
                              recursiveBrowse_fuel fuel' env next (GoInt.sub depth 1) st6
                          end
                      | Panic s => Panic s
                      | OutOfFuel => OutOfFuel
                      end
                  | Panic s => Panic s
                  | OutOfFuel => OutOfFuel
                  end
              | Panic s => Panic s
              | OutOfFuel => OutOfFuel
              end
        | Panic s => Panic s
        | OutOfFuel => OutOfFuel
        end
    end.
Proof.
  destruct fuel; simpl; unfold bind, modify, doRequestM, get, ret;
    destruct (depth =? 0); cbv beta iota;
    destruct (doRequest env url (emit (EvBrowse url depth) st)) as [[content err] st1];
    cbv beta iota; simpl fst; simpl snd; try reflexivity;
    destruct err; try reflexivity;
    destruct (getLinks content st1) as [validLinks st2| |]; try reflexivity;
    match goal with |- context [len ?l =? 0] => destruct (len l =? 0) end;
    try reflexivity;
    match goal with |- context [Intn ?e ?n ?s] => destruct (Intn e n s) end;
    try reflexivity;
    match goal with |- context [Intn ?e ?n ?s] => destruct (Intn e n s) end;
    try reflexivity;
    match goal with |- context [index ?l ?i ?s] => destruct (index l i s) end;
    reflexivity.
Qed.

Lemma index_spec {A} (l : list A) (i : Z) (st : State) :
  match index l i st with
  | Ok a st' => st' = st /\ In a l
  | Panic st' => st' = st
  | OutOfFuel => False
  end.
Proof.
  unfold index. destruct (i <? 0); [reflexivity|].
  destruct (nth_error l (Z.to_nat i)) as [a|] eqn:E; [|reflexivity].
  split; [reflexivity|]. now apply nth_error_In in E.
Qed.

Lemma Quiet_exchange (x : Exchange) : Quiet (exchange_events x).
Proof. intros b. apply exchange_events_quiet. Qed.

Lemma Quiet_sleep (n : Z) : Quiet [EvSleep n].
Proof. intros b. simpl. auto. Qed.

Lemma Quiet_app (q1 q2 : list Event) : Quiet q1 -> Quiet q2 -> Quiet (q1 ++ q2).
Proof.
  intros H1 H2 b. destruct (H1 b) as (R1 & B1 & F1 & G1).
  destruct (H2 b) as (R2 & B2 & F2 & G2).
  rewrite requests_app, browse_depths_app, followed_from_app, flag_after_app.
  rewrite R1, B1, F1, G1, R2, B2, F2, G2. auto.
Qed.

(** A call that made its request and did not recurse. *)
Lemma BrowsePost_leaf (st st' : State) (url : string) (depth : Z) (q : list Event) :
  Quiet q ->
  Frame st st' (EvBrowse url depth :: EvRequest url :: q) ->
  BrowsePost st url depth st'.
Proof.
  intros Hq HF. exists (EvRequest url :: q).
  destruct (Hq false) as (R & B & F & G).
  split; [exact HF|]. simpl. rewrite R, B, F, G. simpl.
  repeat split; auto; try lia.
Qed.

Lemma unsigned_wrap (z : Z) : GoInt.unsigned (GoInt.wrap z) = GoInt.unsigned z.
Proof.
  unfold GoInt.unsigned, GoInt.wrap.
  rewrite Zminus_mod_idemp_l. f_equal. lia.
Qed.

Lemma unsigned_pred (depth : Z) :
  GoInt.in_range depth -> depth <> 0 ->
  GoInt.unsigned (GoInt.sub depth 1) = GoInt.unsigned depth - 1 /\
  0 < GoInt.unsigned depth.
Proof.
  intros Hr Hne. unfold GoInt.sub. rewrite unsigned_wrap.
  unfold GoInt.unsigned, GoInt.in_range, GoInt.MinInt, GoInt.MaxInt,
    GoInt.modulus, GoInt.bits in *.
  change (2 ^ (64 - 1)) with 9223372036854775808 in Hr.
  change (2 ^ 64) with 18446744073709551616.
  pose proof (Z.mod_pos_bound depth 18446744073709551616 ltac:(lia)) as Hb.
  pose proof (Z.div_mod depth 18446744073709551616 ltac:(lia)) as Hdm.
  assert (Hpos : 0 < depth mod 18446744073709551616) by lia.
  split; [|exact Hpos].
  rewrite <- Zminus_mod_idemp_l. apply Z.mod_small. lia.
Qed.

Lemma browse_fuel_pred (depth : Z) :
  GoInt.in_range depth -> depth <> 0 ->
  browse_fuel depth = S (browse_fuel (GoInt.sub depth 1)).
Proof.
  intros Hr Hne. unfold browse_fuel.
  destruct (unsigned_pred depth Hr Hne) as [-> Hpos]. lia.
Qed.

(** A call that made its request and went on with a link that is not
    blacklisted. *)
Lemma BrowsePost_step (st s6 st' : State) (url next : string) (depth : Z)
      (q : list Event) :
  Quiet q ->
  Frame st s6 (EvBrowse url depth :: EvRequest url :: q) ->
  blacklist (viper s6) = blacklist (viper st) ->
  isBlacklisted_in (blacklist (viper st)) next = false ->
  GoInt.in_range depth -> depth <> 0 ->
  BrowsePost s6 next (GoInt.sub depth 1) st' ->
  BrowsePost st url depth st'.
Proof.
  intros Hq HF Hbl Hnext Hr Hne (rest' & HF' & Hch & Hlen & Heq & Hflag & Hfol).
  exists (EvRequest url :: q ++ EvBrowse next (GoInt.sub depth 1) :: rest')%list.
  destruct (Hq false) as (R & B & F & G).
  split; [|split; [|split; [|split; [|split]]]].
  - exact (Frame_trans _ _ _ _ _ HF HF').
  - simpl. rewrite browse_depths_app, B. simpl. split; [reflexivity|].
    exact Hch.
  - simpl. rewrite requests_app, R. simpl.
    rewrite (browse_fuel_pred depth Hr Hne). lia.
  - simpl. rewrite requests_app, browse_depths_app, R, B. simpl.
    simpl in Heq. now rewrite Heq.
  - simpl. rewrite flag_after_app, G. simpl. exact Hflag.
  - intros v. simpl. rewrite followed_from_app, F, G. simpl.
    intros [<-|Hin]; [exact Hnext|]. rewrite <- Hbl. now apply Hfol.
Qed.

(** The traversal engine ends, given fuel for its depth, and whether it
    returns or panics it has done what [BrowsePost] says. *)
Lemma browse_post (fuel : nat) :
  forall (env : Env) (url : string) (depth : Z) (st : State),
    GoInt.in_range depth -> wf_state st -> (browse_fuel depth <= fuel)%nat ->
    match recursiveBrowse_fuel fuel env url depth st with
    | Ok _ st' => BrowsePost st url depth st'
    | Panic st' => BrowsePost st url depth st'
    | OutOfFuel => False
    end.
Proof.
  induction fuel as [|fuel IH]; intros env url depth st Hr Hwf Hfuel;
    rewrite browse_unfold; cbv zeta.
  all: set (st0 := emit (EvBrowse url depth) st).
  all: assert (F0 : Frame st st0 [EvBrowse url depth]) by (now apply Frame_emit).
  all: pose proof (doRequest_Frame env url st0 (Frame_wf _ _ _ F0)) as F1.
  all: pose proof (doRequest_blacklist env url st0) as B1.
  all: destruct (doRequest env url st0) as [[content err] st1]; simpl fst in *;
       simpl snd in *.
  all: pose proof (Frame_trans _ _ _ _ _ F0 F1) as F01; simpl app in F01.
  all: pose proof (Quiet_exchange (exchange_of env url st0)) as Qx.
  all: set (ex := exchange_events (exchange_of env url st0)) in *.
  all: destruct (Z.eqb_spec depth 0) as [Hz|Hnz];
       [exact (BrowsePost_leaf _ _ _ _ _ Qx F01)|].
  all: assert (Fbl : Frame st (blacklist_url url st1)
                           (EvBrowse url depth :: EvRequest url :: ex))
         by (pose proof (Frame_trans _ _ _ _ _ F01
                           (Frame_blacklist_url url st1 (Frame_wf _ _ _ F01))) as Fb;
             now rewrite app_nil_r in Fb).
  all: destruct err as [e|]; [exact (BrowsePost_leaf _ _ _ _ _ Qx Fbl)|].
  all: destruct (getLinks_spec content st1) as (urls & _ & ->).
  all: set (validLinks := filter (fun u => negb (isBlacklisted u st1)) urls).
  all: destruct (len validLinks =? 0); [exact (BrowsePost_leaf _ _ _ _ _ Qx Fbl)|].
  all: pose proof (Frame_Intn env
         (GoInt.add (GoInt.sub (max_wait (viper st1)) (min_wait (viper st1))) 1)
         st1 (Frame_wf _ _ _ F01)) as FI.
  all: destruct (Intn env _ st1) as [n st3| st3|];
       [|destruct FI as [-> _]; exact (BrowsePost_leaf _ _ _ _ _ Qx F01)|destruct FI].
  all: destruct FI as (F3 & _ & _ & B3).
  all: pose proof (Frame_trans _ _ _ _ _ F01 F3) as F03; rewrite app_nil_r in F03.
  all: set (st4 := Sleep_seconds (GoInt.add n (min_wait (viper st3))) st3).
  all: pose proof (Frame_Sleep (GoInt.add n (min_wait (viper st3))) st3
                     (Frame_wf _ _ _ F03)) as F4; fold st4 in F4.
  all: pose proof (Frame_trans _ _ _ _ _ F03 F4) as F04; simpl app in F04.
  all: pose proof (Quiet_app _ _ Qx
         (Quiet_sleep (GoInt.mul (GoInt.add n (min_wait (viper st3))) Second))) as Q4.
  all: pose proof (Frame_Intn env (len validLinks) st4 (Frame_wf _ _ _ F04)) as FI.
  all: destruct (Intn env (len validLinks) st4) as [i st5| st5|];
       [|destruct FI as [-> _]; exact (BrowsePost_leaf _ _ _ _ _ Q4 F04)|destruct FI].
  all: destruct FI as (F5 & _ & _ & B5).
  all: pose proof (Frame_trans _ _ _ _ _ F04 F5) as F05; rewrite app_nil_r in F05.
  all: pose proof (index_spec validLinks i st5) as HI.
  all: destruct (index validLinks i st5) as [next st6| st6|];
       [|subst st6; exact (BrowsePost_leaf _ _ _ _ _ Q4 F05)|destruct HI].
  all: destruct HI as [-> Hin].
  - rewrite (browse_fuel_pred depth Hr Hnz) in Hfuel. lia.
  - assert (Hbl5 : blacklist (viper st5) = blacklist (viper st)).
    { rewrite B5. unfold st4. simpl. rewrite B3, B1. reflexivity. }
    assert (Hnext : isBlacklisted_in (blacklist (viper st)) next = false).
    { apply filter_In in Hin. destruct Hin as [_ Hn].
      apply negb_true_iff in Hn. unfold isBlacklisted in Hn.
      now rewrite B1 in Hn. }
    rewrite (browse_fuel_pred depth Hr Hnz) in Hfuel.
    specialize (IH env next (GoInt.sub depth 1) st5 (wrap_in_range _)
                   (Frame_wf _ _ _ F05) ltac:(lia)).
    destruct (recursiveBrowse_fuel fuel env next (GoInt.sub depth 1) st5)
      as [[] st'|st'|]; [| |exact IH];
      exact (BrowsePost_step _ _ _ _ _ _ _ Q4 F05 Hbl5 Hnext Hr Hnz IH).
Qed.

(** ** The driver loop *)

Lemma run_iteration_unfold (env : Env) (st : State) :
  run_iteration env st =
  match Intn env (len (root_urls (viper st))) st with
  | Ok i s1 =>
      match index (root_urls (viper st)) i s1 with
      | Ok randomURL s2 =>
          match Intn env (GoInt.add (GoInt.sub (max_depth (viper s2))
                                               (min_depth (viper s2))) 1) s2 with
          | Ok d s3 =>
              match recursiveBrowse env randomURL (GoInt.add d (min_depth (viper s3)))
                                    (emit (EvRoot randomURL) s3) with
              | Ok _ s5 => Ok tt (Sleep_seconds 10 s5)
              | Panic s => Panic s
              | OutOfFuel => OutOfFuel
              end
          | Panic s => Panic s
          | OutOfFuel => OutOfFuel
          end
      | Panic s => Panic s
      | OutOfFuel => OutOfFuel
      end
  | Panic s => Panic s
  | OutOfFuel => OutOfFuel
  end.
Proof.
  unfold run_iteration, bind, get, modify. cbv beta iota.
  destruct (Intn env (len (root_urls (viper st))) st) as [i s1| |]; reflexivity.
Qed.

Lemma RunPost_refl (st : State) : wf_state st -> RunPost st st.
Proof.
  intros Hwf. exists []. split; [now apply Frame_refl|]. intros b v [].
Qed.

Lemma isBlacklisted_in_prefix (bl added : list string) (v : string) :
  isBlacklisted_in (bl ++ added) v = false -> isBlacklisted_in bl v = false.
Proof.
  rewrite isBlacklisted_in_app. intros H. now apply orb_false_iff in H.
Qed.

Lemma RunPost_trans (st st1 st2 : State) :
  RunPost st st1 -> RunPost st1 st2 -> RunPost st st2.
Proof.
  intros (n1 & F1 & H1) (n2 & F2 & H2). exists (n1 ++ n2)%list.
  split; [exact (Frame_trans _ _ _ _ _ F1 F2)|].
  intros b v. rewrite followed_from_app, in_app_iff. intros [Hin|Hin].
  - exact (H1 b v Hin).
  - destruct F1 as (_ & _ & _ & _ & _ & _ & _ & _ & _ & _ & (added & Hbl) & _ & _).
    apply (isBlacklisted_in_prefix _ added). rewrite <- Hbl. exact (H2 _ v Hin).
Qed.

Lemma RunPost_Frame (st st' : State) (new : list Event) :
  Frame st st' new -> (forall b, followed_from b new = []) -> RunPost st st'.
Proof.
  intros F H. exists new. split; [exact F|]. intros b v. rewrite H. intros [].
Qed.

Lemma RunPost_browse (st st' : State) (url : string) (depth : Z) :
  wf_state st ->
  BrowsePost (emit (EvRoot url) st) url depth st' -> RunPost st st'.
Proof.
  intros Hwf (rest & F & _ & _ & _ & _ & Hfol).
  pose proof (Frame_emit (EvRoot url) st Hwf I) as F0.
  exists ([EvRoot url] ++ EvBrowse url depth :: rest)%list.
  split; [exact (Frame_trans _ _ _ _ _ F0 F)|].
  intros b v. simpl. exact (Hfol v).
Qed.

(** One iteration of the driver loop ends, and has done what [RunPost] says. *)
Lemma run_iteration_post (env : Env) (st : State) :
  wf_state st ->
  match run_iteration env st with
  | Ok _ st' => RunPost st st'
  | Panic st' => RunPost st st'
  | OutOfFuel => False
  end.
Proof.
  intros Hwf. rewrite run_iteration_unfold.
  pose proof (Frame_Intn env (len (root_urls (viper st))) st Hwf) as FI.
  destruct (Intn env (len (root_urls (viper st))) st) as [i s1|s1|];
    [|destruct FI as [-> _]; now apply RunPost_refl|destruct FI].
  destruct FI as (F1 & _ & _ & _).
  assert (R1 : RunPost st s1) by (apply (RunPost_Frame _ _ _ F1); reflexivity).
  pose proof (index_spec (root_urls (viper st)) i s1) as HI.
  destruct (index (root_urls (viper st)) i s1) as [randomURL s2|s2|];
    [|subst s2; exact R1|destruct HI].
  destruct HI as [-> _].
  pose proof (Frame_Intn env
    (GoInt.add (GoInt.sub (max_depth (viper s1)) (min_depth (viper s1))) 1) s1
    (Frame_wf _ _ _ F1)) as FI.
  destruct (Intn env _ s1) as [d s3|s3|];
    [|destruct FI as [-> _]; exact R1|destruct FI].
  destruct FI as (F3 & _ & _ & _).
  assert (R3 : RunPost st s3).
  { apply (RunPost_trans _ _ _ R1). apply (RunPost_Frame _ _ _ F3). reflexivity. }
  pose proof (Frame_wf _ _ _ F3) as Hwf3.
  pose proof (browse_post (browse_fuel (GoInt.add d (min_depth (viper s3)))) env
                randomURL (GoInt.add d (min_depth (viper s3)))
                (emit (EvRoot randomURL) s3) (wrap_in_range _) Hwf3 (le_n _)) as HB.
  unfold recursiveBrowse.
  destruct (recursiveBrowse_fuel _ env randomURL _ (emit (EvRoot randomURL) s3))
    as [[] s5|s5|]; [| |exact HB].
  - pose proof (RunPost_browse _ _ _ _ Hwf3 HB) as R5.
    apply (RunPost_trans _ _ _ R3). apply (RunPost_trans _ _ _ R5).
    destruct R5 as (n5 & F5 & _).
    apply (RunPost_Frame _ _ _ (Frame_Sleep 10 s5 (Frame_wf _ _ _ F5))). reflexivity.
  - apply (RunPost_trans _ _ _ R3). exact (RunPost_browse _ _ _ _ Hwf3 HB).
Qed.

Lemma RunPost_wf (st st' : State) : RunPost st st' -> wf_state st'.
Proof. intros (new & F & _). exact (Frame_wf _ _ _ F). Qed.

(** Any number of iterations of the driver loop end, and have done what
    [RunPost] says. *)
Lemma run_post (n : nat) (env : Env) (st : State) :
  wf_state st ->
  match run n env st with
  | Ok _ st' => RunPost st st'
  | Panic st' => RunPost st st'
  | OutOfFuel => False
  end.
Proof.
  revert st. induction n as [|n IH]; intros st Hwf; simpl.
  - now apply RunPost_refl.
  - unfold bind. pose proof (run_iteration_post env st Hwf) as H1.
    destruct (run_iteration env st) as [[] st1|st1|]; [|exact H1|exact H1].
    specialize (IH st1 (RunPost_wf _ _ H1)).
    destruct (run n env st1) as [[] st2|st2|]; [| |exact IH];
      exact (RunPost_trans _ _ _ H1 IH).
Qed.

(** Every operation of the core is a frame. *)
Lemma core_step_Frame (env : Env) (st st' : State) :
  wf_state st -> core_step env st st' -> exists new, Frame st st' new.
Proof.
  intros Hwf Hstep. revert Hwf.
  induction Hstep as [url s|content s s' H|url depth s s' Hr H|n s s' H
                     |s s1 s' _ IH1 _ IH2]; intros Hwf.
  5: { destruct (IH1 Hwf) as (n1 & F1).
       destruct (IH2 (Frame_wf _ _ _ F1)) as (n2 & F2).
       eexists. exact (Frame_trans _ _ _ _ _ F1 F2). }
  - eexists. now apply doRequest_Frame.
  - destruct (getLinks_spec content s) as (urls & _ & E). rewrite E in H.
    simpl in H. subst s'. exists []. now apply Frame_refl.
  - pose proof (browse_post (browse_fuel depth) env url depth s Hr Hwf (le_n _)) as HB.
    unfold recursiveBrowse in H.
    destruct (recursiveBrowse_fuel _ env url depth s) as [[] s1|s1|];
      simpl in H; [| |contradiction]; subst s1;
      destruct HB as (rest & F & _); eexists; exact F.
  - pose proof (run_post n env s Hwf) as HR.
    destruct (run n env s) as [[] s1|s1|]; simpl in H; [| |contradiction];
      subst s1; destruct HR as (new & F & _); eexists; exact F.
Qed.

(** * The claims *)

(** ** C6: the blacklist filter *)

(** C6. For every URL and every blacklist, [isBlacklisted] returns true if
    and only if some blacklist entry is a substring of the URL; so a
    blacklist that holds facebook.com, at any place, also excludes
    facebook.com.evil.example. *)
Theorem isBlacklisted_iff_substring :
  (forall (u : string) (st : State),
      isBlacklisted u st = true <->
      exists entry, In entry (blacklist (viper st)) /\ Substring entry u) /\
  (forall (st : State) (before after : list string),
      isBlacklisted "facebook.com.evil.example"
        (with_viper (set_blacklist (before ++ "facebook.com" :: after)) st) = true).
Proof.
  split.
  - intros u st. apply isBlacklisted_in_iff.
  - intros st before after. apply isBlacklisted_in_iff.
    exists "facebook.com". split.
    + simpl. apply in_elt.
    + exists "", ".evil.example". reflexivity.
Qed.

(** ** C5: the link extractor *)

(** C5. With an empty blacklist, [getLinks] returns, without panic and for
    every body, exactly the URLs that [Extracts] finds: those enclosed in the
    occurrences of the pattern, from left to right, duplicates kept.  Every
    URL returned starts with http:// or https://, and a body in which the
    pattern occurs nowhere gives the empty slice. *)
Theorem getLinks_extracts (content : string) (st : State) :
  blacklist (viper st) = [] ->
  exists links,
    getLinks content st = Ok links st /\
    Extracts content links /\
    (forall links', Extracts content links' -> links' = links) /\
    Forall LinkURL links /\
    ((forall pre suf u, content = pre ++ suf -> ~ occurs_at_front suf u) ->
     links = []).
Proof.
  intros Hbl. destruct (getLinks_spec content st) as (urls & Hex & E).
  assert (Hf : filter (fun u => negb (isBlacklisted u st)) urls = urls).
  { apply forallb_filter_id. apply forallb_forall. intros u _.
    unfold isBlacklisted. now rewrite Hbl. }
  rewrite Hf in E. exists urls. split; [exact E|]. split; [exact Hex|].
  split; [|split].
  - intros links' H'. exact (Extracts_functional _ _ _ H' Hex).
  - exact (Extracts_LinkURL _ _ Hex).
  - exact (Extracts_no_occurrence _ _ Hex).
Qed.

Lemma getLinks_extracts_witness :
  blacklist (viper (with_viper (set_blacklist []) sample_state)) = [] /\
  exists links,
    getLinks sample_page (with_viper (set_blacklist []) sample_state)
    = Ok links (with_viper (set_blacklist []) sample_state) /\
    Extracts sample_page links /\
    (forall links', Extracts sample_page links' -> links' = links) /\
    Forall LinkURL links /\
    ((forall pre suf u, sample_page = pre ++ suf -> ~ occurs_at_front suf u) ->
     links = []).
Proof.
  split; [reflexivity|].
  apply (getLinks_extracts sample_page (with_viper (set_blacklist []) sample_state)).
  reflexivity.
Defined.

(** ** C7: statuses are not errors *)


(** ** C10: errors leave the counters and the wait bounds alone *)

(** C10. Whenever [doRequest] returns an error, the counters [goodRequests]
    and [badRequests], the data meter and the configured [min_wait] and
    [max_wait] are what they were before the call. *)
Theorem doRequest_error_keeps_state (env : Env) (url : string) (st : State)
        (e : error) :
  snd (fst (doRequest env url st)) = Some e ->
  goodRequests (snd (doRequest env url st)) = goodRequests st /\
  badRequests (snd (doRequest env url st)) = badRequests st /\
  dataMeter (snd (doRequest env url st)) = dataMeter st /\
  min_wait (viper (snd (doRequest env url st))) = min_wait (viper st) /\
  max_wait (viper (snd (doRequest env url st))) = max_wait (viper st).
Proof.
  unfold doRequest.
  destruct (http env (nreq st) url (user_agent (viper st))) as [| |partial|c body];
    simpl; try (intros _; repeat split; reflexivity).
  discriminate.
Qed.

Lemma doRequest_error_keeps_state_witness :
  snd (fst (doRequest env_down "https://www.example.com" sample_state))
  = Some ErrTransport /\
  goodRequests (snd (doRequest env_down "https://www.example.com" sample_state))
  = goodRequests sample_state /\
  badRequests (snd (doRequest env_down "https://www.example.com" sample_state))
  = badRequests sample_state /\
  dataMeter (snd (doRequest env_down "https://www.example.com" sample_state))
  = dataMeter sample_state /\
  min_wait (viper (snd (doRequest env_down "https://www.example.com" sample_state)))
  = min_wait (viper sample_state) /\
  max_wait (viper (snd (doRequest env_down "https://www.example.com" sample_state)))
  = max_wait (viper sample_state).
Proof.
  split; [reflexivity|].
  exact (doRequest_error_keeps_state env_down "https://www.example.com"
           sample_state ErrTransport eq_refl).
Defined.

(** ** C8: dead ends *)

(** C8. A traversal step with depth at least 1 whose request succeeds and
    whose page has no valid link appends the URL to the blacklist and
    returns: there is one request and no further call of [recursiveBrowse]. *)
Theorem recursiveBrowse_dead_end (env : Env) (url : string) (depth : Z)
        (st st1 : State) (content : string) :
  1 <= depth ->
  doRequest env url (emit (EvBrowse url depth) st) = ((content, None), st1) ->
  getLinks content st1 = Ok [] st1 ->
  recursiveBrowse env url depth st = Ok tt (blacklist_url url st1) /\
  blacklist (viper (blacklist_url url st1)) = (blacklist (viper st) ++ [url])%list /\
  exists q,
    trace (blacklist_url url st1)
    = (trace st ++ EvBrowse url depth :: EvRequest url :: q)%list /\
    requests q = [] /\ browse_depths q = [].
Proof.
  intros Hd Hreq Hlinks.
  pose proof (doRequest_blacklist env url (emit (EvBrowse url depth) st)) as Hbl.
  pose proof (doRequest_trace env url (emit (EvBrowse url depth) st)) as Htr.
  rewrite Hreq in Hbl, Htr. simpl in Hbl, Htr.
  split; [|split].
  - unfold recursiveBrowse. rewrite browse_unfold. cbv zeta. rewrite Hreq.
    destruct (Z.eqb_spec depth 0) as [E|_]; [lia|].
    simpl. rewrite Hlinks. reflexivity.
  - simpl. now rewrite Hbl.
  - eexists. split.
    + simpl. rewrite Htr, <- app_assoc. reflexivity.
    + split; apply (Quiet_exchange _ false).
Qed.

Lemma recursiveBrowse_dead_end_witness :
  1 <= 3 /\
  recursiveBrowse env_dead_end "https://www.example.com" 3 sample_state
  = Ok tt (blacklist_url "https://www.example.com"
             (snd (doRequest env_dead_end "https://www.example.com"
                     (emit (EvBrowse "https://www.example.com" 3) sample_state)))) /\
  blacklist (viper (blacklist_url "https://www.example.com"
             (snd (doRequest env_dead_end "https://www.example.com"
                     (emit (EvBrowse "https://www.example.com" 3) sample_state)))))
  = ["facebook.com"; "pinterest.com"; "https://www.example.com"].
Proof.
  split; [lia|].
  destruct (recursiveBrowse_dead_end env_dead_end "https://www.example.com" 3
              sample_state
              (snd (doRequest env_dead_end "https://www.example.com"
                      (emit (EvBrowse "https://www.example.com" 3) sample_state)))
              dead_end_page ltac:(lia) eq_refl eq_refl) as (H1 & H2 & _).
  split; [exact H1 | exact H2].
Defined.

(** ** C3: the number of fetches *)

Lemma chain_nth (l : list Z) :
  forall d, 0 <= d <= GoInt.MaxInt -> Z.of_nat (List.length l) <= d + 1 ->
            chain d l ->
            forall i x, nth_error l i = Some x -> x = d - Z.of_nat i.
Proof.
  induction l as [|y l IH]; intros d Hd Hlen Hch i x Hn.
  - destruct i; discriminate.
  - destruct Hch as [-> Hch]. destruct i as [|i]; simpl in Hn.
    + injection Hn as <-. simpl. lia.
    + assert (Hl : (1 <= List.length l)%nat).
      { destruct l; [destruct i; discriminate | simpl; lia]. }
      simpl List.length in Hlen.
      assert (Hsub : GoInt.sub d 1 = d - 1).
      { apply wrap_small. unfold GoInt.in_range, GoInt.MinInt, GoInt.MaxInt in *.
        simpl in *. lia. }
      rewrite Hsub in Hch.
      rewrite (IH (d - 1) ltac:(unfold GoInt.MaxInt in *; lia) ltac:(lia) Hch i x Hn).
      lia.
Qed.

Lemma browse_fuel_nonneg (d : Z) :
  0 <= d <= GoInt.MaxInt -> browse_fuel d = Z.to_nat d.
Proof.
  intros Hd. unfold browse_fuel, GoInt.unsigned. rewrite Z.mod_small; [reflexivity|].
  unfold GoInt.MaxInt, GoInt.modulus, GoInt.bits in *. simpl in *. lia.
Qed.

(** C3. One call of [recursiveBrowse] with a depth [d] that is not negative
    ends, by returning or by a panic, after at most [d + 1] requests; each
    call of the chain makes one request, the call number [i] of the chain
    has depth [d - i], so the depth goes down by exactly one at each
    recursive step; at depth 0 the call returns after exactly one request
    and makes no recursive call. *)
Theorem recursiveBrowse_fetch_bound (env : Env) (url : string) (d : Z) (st : State) :
  wf_state st -> 0 <= d <= GoInt.MaxInt ->
  exists st' new,
    (recursiveBrowse env url d st = Ok tt st' \/
     recursiveBrowse env url d st = Panic st') /\
    trace st' = (trace st ++ new)%list /\
    Z.of_nat (List.length (requests new)) <= d + 1 /\
    List.length (browse_depths new) = List.length (requests new) /\
    (forall i x, nth_error (browse_depths new) i = Some x -> x = d - Z.of_nat i) /\
    (d = 0 ->
     recursiveBrowse env url d st = Ok tt st' /\
     requests new = [url] /\ browse_depths new = [0]).
Proof.
  intros Hwf Hd.
  assert (Hr : GoInt.in_range d).
  { unfold GoInt.in_range, GoInt.MinInt, GoInt.MaxInt in *. simpl in *. lia. }
  pose proof (browse_post (browse_fuel d) env url d st Hr Hwf (le_n _)) as HB.
  assert (Hzero : d = 0 ->
                  recursiveBrowse env url d st
                  = Ok tt (snd (doRequest env url (emit (EvBrowse url d) st)))).
  { intros ->. unfold recursiveBrowse. rewrite browse_unfold. reflexivity. }
  fold (recursiveBrowse env url d st) in HB.
  assert (Hpost : forall st', BrowsePost st url d st' ->
            exists new,
              trace st' = (trace st ++ new)%list /\
              Z.of_nat (List.length (requests new)) <= d + 1 /\
              List.length (browse_depths new) = List.length (requests new) /\
              (forall i x, nth_error (browse_depths new) i = Some x ->
                           x = d - Z.of_nat i)).
  { intros st' (rest & F & Hch & Hlen & Heq & _).
    exists (EvBrowse url d :: rest). destruct F as (Ht & _).
    rewrite (browse_fuel_nonneg d Hd) in Hlen.
    split; [exact Ht|]. simpl requests. split; [lia|]. split; [now rewrite Heq|].
    apply chain_nth; [exact Hd| |exact Hch]. rewrite <- Heq. lia. }
  destruct (recursiveBrowse env url d st) as [[] st'|st'|] eqn:E; [| |contradiction].
  - destruct (Hpost st' HB) as (new & Ht & Hn & Heq & Hnth).
    exists st', new. split; [now left|]. repeat (split; [assumption|]).
    intros Hz. split; [reflexivity|].
    pose proof (Hzero Hz) as E'. injection E' as E'. subst st'.
    pose proof (doRequest_trace env url (emit (EvBrowse url d) st)) as Ht'.
    simpl in Ht'. rewrite <- app_assoc in Ht'. rewrite Ht in Ht'.
    apply app_inv_head in Ht'. subst new. simpl.
    destruct (Quiet_exchange (exchange_of env url (emit (EvBrowse url d) st)) false)
      as (-> & -> & _). now subst d.
  - destruct (Hpost st' HB) as (new & Ht & Hn & Heq & Hnth).
    exists st', new. split; [now right|]. repeat (split; [assumption|]).
    intros Hz. discriminate (Hzero Hz).
Qed.

Lemma recursiveBrowse_fetch_bound_witness :
  wf_state sample_state /\ 0 <= 2 <= GoInt.MaxInt /\
  exists st' new,
    (recursiveBrowse env_sample "https://www.example.com" 2 sample_state = Ok tt st' \/
     recursiveBrowse env_sample "https://www.example.com" 2 sample_state = Panic st') /\
    trace st' = (trace sample_state ++ new)%list /\
    Z.of_nat (List.length (requests new)) <= 2 + 1 /\
    List.length (browse_depths new) = List.length (requests new) /\
    (forall i x, nth_error (browse_depths new) i = Some x -> x = 2 - Z.of_nat i) /\
    (2 = 0 ->
     recursiveBrowse env_sample "https://www.example.com" 2 sample_state = Ok tt st' /\
     requests new = ["https://www.example.com"] /\ browse_depths new = [0]).
Proof.
  assert (Hwf : wf_state sample_state).
  { unfold wf_state, GoInt.in_range. simpl. repeat split; vm_compute; discriminate. }
  assert (Hd : 0 <= 2 <= GoInt.MaxInt).
  { split; vm_compute; discriminate. }
  split; [exact Hwf|]. split; [exact Hd|].
  exact (recursiveBrowse_fetch_bound env_sample "https://www.example.com" 2
           sample_state Hwf Hd).
Defined.

(** ** C1: a URL whose fetch fails is blacklisted *)

Lemma In_isBlacklisted_in (bl : list string) (url : string) :
  In url bl -> isBlacklisted_in bl url = true.
Proof.
  intros Hin. apply isBlacklisted_in_iff. exists url. split; [exact Hin|].
  apply Substring_refl.
Qed.

(** C1, as the code has it.  A traversal step with depth at least 1 whose
    request fails in the transport makes that one request, appends the URL
    at the end of the blacklist, which adds one occurrence (the only one when
    the URL was not blacklisted before, as for every followed link), and
    returns.  From then on, whatever the network does and however long the
    driver loop runs (it always ends its iterations, by returning or by a
    panic), the URL stays in the blacklist and is never browsed as a followed
    link.  Nothing is said of the choice of root URLs. *)
Theorem transport_error_blacklists (env : Env) (url : string) (depth : Z)
        (st : State) :
  1 <= depth ->
  exchange_of env url st = TransportError ->
  exists st',
    recursiveBrowse env url depth st = Ok tt st' /\
    trace st' = (trace st ++ [EvBrowse url depth; EvRequest url;
                              EvSleep (GoInt.mul 30 Second)])%list /\
    blacklist (viper st') = (blacklist (viper st) ++ [url])%list /\
    count_occ string_dec (blacklist (viper st')) url
    = S (count_occ string_dec (blacklist (viper st)) url) /\
    (isBlacklisted url st = false ->
     count_occ string_dec (blacklist (viper st')) url = 1%nat) /\
    forall (env' : Env) (n : nat) (st2 : State),
      wf_state st2 -> In url (blacklist (viper st2)) ->
      exists st3 new,
        ends_in (run n env' st2) st3 /\
        In url (blacklist (viper st3)) /\
        trace st3 = (trace st2 ++ new)%list /\
        ~ In url (followed_from false new).
Proof.
  intros Hd Hx.
  assert (Hreq : doRequest env url (emit (EvBrowse url depth) st)
                 = (("", Some ErrTransport),
                    Sleep_seconds 30
                      (count_request (emit (EvRequest url)
                                           (emit (EvBrowse url depth) st))))).
  { unfold doRequest. unfold exchange_of in Hx. simpl. rewrite Hx. reflexivity. }
  eexists. split; [|split; [|split; [|split; [|split]]]].
  - unfold recursiveBrowse. rewrite browse_unfold. cbv zeta. rewrite Hreq.
    destruct (Z.eqb_spec depth 0) as [E|_]; [lia|]. reflexivity.
  - simpl. rewrite <- !app_assoc. reflexivity.
  - reflexivity.
  - simpl. rewrite count_occ_app. simpl.
    destruct (string_dec url url) as [_|Hne]; [lia | congruence].
  - intros Hnb. simpl. rewrite count_occ_app. simpl.
    destruct (string_dec url url) as [_|Hne]; [|congruence].
    assert (H0 : count_occ string_dec (blacklist (viper st)) url = 0%nat).
    { apply count_occ_not_In. intros Hin.
      apply In_isBlacklisted_in in Hin. unfold isBlacklisted in Hnb. congruence. }
    rewrite H0. reflexivity.
  - intros env' n st2 Hwf Hin.
    pose proof (run_post n env' st2 Hwf) as HR.
    assert (HP : exists st3, ends_in (run n env' st2) st3 /\ RunPost st2 st3).
    { destruct (run n env' st2) as [[] s|s|]; [| |contradiction];
        exists s; split; [reflexivity | exact HR | reflexivity | exact HR]. }
    destruct HP as (st3 & Hends & new & F & Hfol).
    pose proof F as (Ht & _ & _ & _ & _ & _ & _ & _ & _ & _ & (added & Hbl) & _).
    exists st3, new. split; [exact Hends|]. split; [|split; [exact Ht|]].
    + rewrite Hbl. apply in_or_app. now left.
    + intros Hf. apply Hfol in Hf. apply In_isBlacklisted_in in Hin. congruence.
Qed.

Lemma transport_error_blacklists_witness :
  1 <= 1 /\
  exchange_of env_down "http://a.example/" (initial_state one_root_viper)
  = TransportError /\
  exists st',
    recursiveBrowse env_down "http://a.example/" 1 (initial_state one_root_viper)
    = Ok tt st' /\
    blacklist (viper st') = ["http://a.example/"].
Proof.
  split; [lia|]. split; [reflexivity|].
  destruct (transport_error_blacklists env_down "http://a.example/" 1
              (initial_state one_root_viper) ltac:(lia) eq_refl)
    as (st' & H1 & _ & H2 & _).
  exists st'. split; [exact H1 | exact H2].
Defined.

(** C1 as it is stated fails: with one root URL and a network that is down,
    the first traversal (depth 1) fails in the transport and blacklists the
    root, and the second iteration of the driver loop requests the same URL
    again and blacklists it a second time. *)
Lemma blacklisted_root_is_fetched_again :
  exists st1 st2,
    run 1 env_down (initial_state one_root_viper) = Ok tt st1 /\
    exchange_of env_down "http://a.example/" (initial_state one_root_viper)
    = TransportError /\
    browse_depths (trace st1) = [1] /\
    blacklist (viper st1) = ["http://a.example/"] /\
    run 2 env_down (initial_state one_root_viper) = Ok tt st2 /\
    requests (trace st2) = ["http://a.example/"; "http://a.example/"] /\
    count_occ string_dec (blacklist (viper st2)) "http://a.example/" = 2%nat.
Proof.
  eexists. eexists.
  split; [vm_compute; reflexivity|].
  split; [reflexivity|].
  split; [vm_compute; reflexivity|].
  split; [vm_compute; reflexivity|].
  split; [vm_compute; reflexivity|].
  split; vm_compute; reflexivity.
Qed.

(** ** C2: the backoff *)

Lemma wrap_le (w k : Z) :
  GoInt.in_range w -> 0 <= k -> w + k <= GoInt.MaxInt ->
  GoInt.wrap (w + k) = w + k /\ w <= GoInt.wrap (w + k).
Proof.
  intros Hw Hk Hle.
  assert (E : GoInt.wrap (w + k) = w + k).
  { apply wrap_small. unfold GoInt.in_range in *. lia. }
  rewrite E. split; [reflexivity | lia].
Qed.

(** C2, as the code has it.  A call of [doRequest] that sees status 429
    sets each wait bound to its value before the call plus 10 in Go's
    arithmetic: exactly plus 10 unless the bound is within 10 of the largest
    [int], where the addition wraps around.  A second 429 adds 10 again, 20
    in all, under the same proviso.  No operation of the core changes the
    bounds otherwise: after any operation each bound is its earlier value
    plus 10 for every 429 met in between, wrapped; it is unchanged when no
    429 was met, and it has not decreased unless it wrapped around. *)
Theorem backoff_adds_ten (env : Env) (url : string) (st : State) (content : string) :
  wf_state st ->
  exchange_of env url st = Response 429 content ->
  min_wait (viper (snd (doRequest env url st))) = GoInt.add (min_wait (viper st)) 10 /\
  max_wait (viper (snd (doRequest env url st))) = GoInt.add (max_wait (viper st)) 10 /\
  (min_wait (viper st) <= GoInt.MaxInt - 10 ->
   min_wait (viper (snd (doRequest env url st))) = min_wait (viper st) + 10) /\
  (max_wait (viper st) <= GoInt.MaxInt - 10 ->
   max_wait (viper (snd (doRequest env url st))) = max_wait (viper st) + 10) /\
  (forall url2 content2,
      exchange_of env url2 (snd (doRequest env url st)) = Response 429 content2 ->
      (min_wait (viper st) <= GoInt.MaxInt - 20 ->
       min_wait (viper (snd (doRequest env url2 (snd (doRequest env url st)))))
       = min_wait (viper st) + 20) /\
      (max_wait (viper st) <= GoInt.MaxInt - 20 ->
       max_wait (viper (snd (doRequest env url2 (snd (doRequest env url st)))))
       = max_wait (viper st) + 20)) /\
  (forall env2 st2 st3 new,
      wf_state st2 -> core_step env2 st2 st3 ->
      trace st3 = (trace st2 ++ new)%list ->
      min_wait (viper st3)
      = GoInt.wrap (min_wait (viper st2) + 10 * count_status is429 new) /\
      max_wait (viper st3)
      = GoInt.wrap (max_wait (viper st2) + 10 * count_status is429 new) /\
      (count_status is429 new = 0 ->
       min_wait (viper st3) = min_wait (viper st2) /\
       max_wait (viper st3) = max_wait (viper st2)) /\
      (min_wait (viper st2) + 10 * count_status is429 new <= GoInt.MaxInt ->
       min_wait (viper st3) = min_wait (viper st2) + 10 * count_status is429 new /\
       min_wait (viper st2) <= min_wait (viper st3)) /\
      (max_wait (viper st2) + 10 * count_status is429 new <= GoInt.MaxInt ->
       max_wait (viper st3) = max_wait (viper st2) + 10 * count_status is429 new /\
       max_wait (viper st2) <= max_wait (viper st3))).
Proof.
  intros Hwf Hx.
  assert (Hstep : forall u s c, exchange_of env u s = Response 429 c ->
            min_wait (viper (snd (doRequest env u s))) = GoInt.add (min_wait (viper s)) 10 /\
            max_wait (viper (snd (doRequest env u s))) = GoInt.add (max_wait (viper s)) 10).
  { intros u s c H. unfold exchange_of in H. unfold doRequest. rewrite H.
    simpl. split; reflexivity. }
  destruct (Hstep url st content Hx) as [Emin Emax].
  destruct Hwf as (_ & _ & _ & Hmin & Hmax).
  assert (Hplus : forall w k, GoInt.in_range w -> 0 <= k -> w <= GoInt.MaxInt - k ->
                              GoInt.wrap (w + k) = w + k).
  { intros w k Hw Hk Hle. apply wrap_le; [assumption | assumption | lia]. }
  split; [exact Emin|]. split; [exact Emax|].
  split; [|split; [|split]].
  - intros H. rewrite Emin. apply Hplus; [assumption | lia | assumption].
  - intros H. rewrite Emax. apply Hplus; [assumption | lia | assumption].
  - intros url2 content2 Hx2.
    destruct (Hstep url2 _ content2 Hx2) as [Emin2 Emax2].
    rewrite Emin2, Emax2, Emin, Emax. unfold GoInt.add. rewrite !wrap_add_l.
    split; intros H.
    + replace (min_wait (viper st) + 10 + 10) with (min_wait (viper st) + 20) by lia.
      apply Hplus; [assumption | lia | assumption].
    + replace (max_wait (viper st) + 10 + 10) with (max_wait (viper st) + 20) by lia.
      apply Hplus; [assumption | lia | assumption].
  - intros env2 st2 st3 new Hwf2 Hcs Ht.
    destruct (core_step_Frame env2 st2 st3 Hwf2 Hcs) as (new' & F).
    destruct F as (Ht' & _ & _ & _ & Fmin & Fmax & _).
    rewrite Ht in Ht'. apply app_inv_head in Ht'. subst new'.
    destruct Hwf2 as (_ & _ & _ & Hmin2 & Hmax2).
    pose proof (count_status_nonneg is429 new) as Hk.
    split; [exact Fmin|]. split; [exact Fmax|].
    split; [|split]; intros H.
    + rewrite Fmin, Fmax, H, Z.mul_0_r, !Z.add_0_r.
      split; apply wrap_small; assumption.
    + rewrite Fmin. apply wrap_le; [assumption | lia | assumption].
    + rewrite Fmax. apply wrap_le; [assumption | lia | assumption].
Qed.

Lemma sample_state_wf : wf_state sample_state.
Proof.
  unfold wf_state, GoInt.in_range. simpl. repeat split; vm_compute; discriminate.
Qed.

Lemma backoff_adds_ten_witness :
  wf_state sample_state /\
  exchange_of env_429 "https://www.example.com" sample_state
  = Response 429 "slow down" /\
  min_wait (viper (snd (doRequest env_429 "https://www.example.com" sample_state)))
  = 5 + 10 /\
  max_wait (viper (snd (doRequest env_429 "https://www.example.com" sample_state)))
  = 10 + 10.
Proof.
  split; [exact sample_state_wf|]. split; [reflexivity|].
  destruct (backoff_adds_ten env_429 "https://www.example.com" sample_state
              "slow down" sample_state_wf eq_refl) as (_ & _ & Hmin & Hmax & _).
  split; [apply Hmin | apply Hmax]; vm_compute; discriminate.
Defined.

(** C2 as it is stated fails: with [max_wait] at the largest [int], a 429
    does not give the value before plus 10, and the bound decreases. *)
Lemma backoff_wraps_around :
  wf_state (initial_state max_wait_viper) /\
  exchange_of env_429 "https://www.example.com" (initial_state max_wait_viper)
  = Response 429 "slow down" /\
  max_wait (viper (initial_state max_wait_viper)) = 9223372036854775807 /\
  max_wait (viper (snd (doRequest env_429 "https://www.example.com"
                                  (initial_state max_wait_viper))))
  = -9223372036854775799 /\
  max_wait (viper (snd (doRequest env_429 "https://www.example.com"
                                  (initial_state max_wait_viper))))
  <> max_wait (viper (initial_state max_wait_viper)) + 10 /\
  max_wait (viper (snd (doRequest env_429 "https://www.example.com"
                                  (initial_state max_wait_viper))))
  < max_wait (viper (initial_state max_wait_viper)).
Proof.
  split.
  { unfold wf_state, GoInt.in_range. simpl. repeat split; vm_compute; discriminate. }
  split; [reflexivity|]. split; [reflexivity|]. split; [reflexivity|].
  split; [vm_compute; discriminate | vm_compute; reflexivity].
Qed.

(** ** C4: the order of the bounds *)




(** ** C9: the counters *)

(** C9, as the code has it.  A call of [doRequest] that reads a body adds
    its length to the data meter, in Go's arithmetic, whatever the status.
    Across any operation of the core the data meter has grown by the bytes
    of the bodies read, [goodRequests] by the number of responses with status
    200 and [badRequests] by the number of the others, each sum wrapped to
    64 bits: a counter has not decreased unless it wrapped around. *)
Theorem counters_grow (env : Env) (st : State) :
  wf_state st ->
  (forall url StatusCode content,
      exchange_of env url st = Response StatusCode content ->
      dataMeter (snd (doRequest env url st))
      = GoInt.add (dataMeter st) (Z.of_nat (String.length content))) /\
  (forall st' new,
      core_step env st st' ->
      trace st' = (trace st ++ new)%list ->
      0 <= page_bytes new /\
      dataMeter st' = GoInt.wrap (dataMeter st + page_bytes new) /\
      goodRequests st' = GoInt.wrap (goodRequests st + count_status is200 new) /\
      badRequests st' = GoInt.wrap (badRequests st + count_status not200 new) /\
      (dataMeter st + page_bytes new <= GoInt.MaxInt ->
       dataMeter st <= dataMeter st') /\
      (goodRequests st + count_status is200 new <= GoInt.MaxInt ->
       goodRequests st <= goodRequests st') /\
      (badRequests st + count_status not200 new <= GoInt.MaxInt ->
       badRequests st <= badRequests st')).
Proof.
  intros Hwf. split.
  - intros url c content Hx. unfold exchange_of in Hx. unfold doRequest.
    rewrite Hx. destruct (c =? 200); simpl; [|destruct (c =? 429)]; reflexivity.
  - intros st' new Hcs Ht.
    destruct (core_step_Frame env st st' Hwf Hcs) as (new' & F).
    destruct F as (Ht' & Fd & Fg & Fb & _ & _ & _ & _ & _ & _ & _ & _ & Hp).
    rewrite Ht in Ht'. apply app_inv_head in Ht'. subst new'.
    destruct Hwf as (Hd & Hg & Hb & _).
    split; [exact Hp|]. split; [exact Fd|]. split; [exact Fg|]. split; [exact Fb|].
    split; [|split]; intros H.
    + rewrite Fd. now apply wrap_le.
    + rewrite Fg. apply wrap_le; [assumption | apply count_status_nonneg | assumption].
    + rewrite Fb. apply wrap_le; [assumption | apply count_status_nonneg | assumption].
Qed.

Lemma counters_grow_witness :
  wf_state sample_state /\
  dataMeter (snd (doRequest env_429 "https://www.example.com" sample_state))
  = GoInt.add (dataMeter sample_state) 9 /\
  badRequests sample_state
  <= badRequests (snd (doRequest env_429 "https://www.example.com" sample_state)).
Proof.
  split; [exact sample_state_wf|].
  destruct (counters_grow env_429 sample_state sample_state_wf) as [H1 H2].
  split.
  - exact (H1 "https://www.example.com" 429 "slow down" eq_refl).
  - destruct (H2 (snd (doRequest env_429 "https://www.example.com" sample_state))
                 [EvRequest "https://www.example.com"; EvResponse 429 9]
                 (step_doRequest env_429 _ _) eq_refl)
      as (_ & _ & _ & _ & _ & _ & Hb).
    apply Hb. vm_compute. discriminate.
Defined.

(** C9 as it is stated fails: once the data meter is at the largest
    [int64], reading one more byte makes it negative. *)
Lemma data_meter_wraps_around :
  wf_state full_meter_state /\
  exchange_of env_one_byte "https://www.example.com" full_meter_state
  = Response 200 "x" /\
  dataMeter full_meter_state = 9223372036854775807 /\
  dataMeter (snd (doRequest env_one_byte "https://www.example.com" full_meter_state))
  = -9223372036854775808 /\
  dataMeter (snd (doRequest env_one_byte "https://www.example.com" full_meter_state))
  < dataMeter full_meter_state.
Proof.
  split.
  { unfold wf_state, GoInt.in_range. simpl. repeat split; vm_compute; discriminate. }
  split; [reflexivity|]. split; [reflexivity|]. split; [reflexivity|].
  vm_compute. reflexivity.
Qed.

(** The state of the counterexample is one the process reaches: under
    [zero_depth_viper], with pages of one byte, the data meter counts the
    iterations of the driver loop, reaches the largest [int64] and then
    wraps around. *)
Lemma one_byte_iteration (st : State) :
  viper st = zero_depth_viper ->
  run_iteration env_one_byte st = Ok tt (one_byte_next st).
Proof.
  destruct st as [dm g b v nr nd tr]. simpl. intros ->.
  rewrite run_iteration_unfold. unfold recursiveBrowse.
  change (Intn env_one_byte (len (root_urls (viper
            (mkState dm g b zero_depth_viper nr nd tr))))
            (mkState dm g b zero_depth_viper nr nd tr))
    with (Ok (A := Z) 0 (mkState dm g b zero_depth_viper nr (S nd) tr)).
  cbv beta iota.
  change (index (root_urls (viper (mkState dm g b zero_depth_viper nr nd tr))) 0
                (mkState dm g b zero_depth_viper nr (S nd) tr))
    with (Ok "http://a.example/" (mkState dm g b zero_depth_viper nr (S nd) tr)).
  cbv beta iota.
  change (Intn env_one_byte _ (mkState dm g b zero_depth_viper nr (S nd) tr))
    with (Ok (A := Z) 0 (mkState dm g b zero_depth_viper nr (S (S nd)) tr)).
  cbv beta iota.
  change (GoInt.add 0 (min_depth (viper
            (mkState dm g b zero_depth_viper nr (S (S nd)) tr)))) with 0.
  rewrite browse_unfold. unfold one_byte_next. simpl.
  cbv beta iota delta [Sleep_seconds incr_goodRequests add_dataMeter emit
                       count_request dataMeter goodRequests badRequests viper
                       nreq ndraw trace].
  rewrite <- !app_assoc. reflexivity.
Qed.

Lemma one_byte_run (n : nat) :
  forall st, viper st = zero_depth_viper ->
             run n env_one_byte st = Ok tt (one_byte_after n st).
Proof.
  induction n as [|n IH]; intros st Hv; simpl; [reflexivity|].
  unfold bind. rewrite (one_byte_iteration st Hv). now apply IH.
Qed.

Lemma one_byte_meter (n : nat) :
  forall st, GoInt.in_range (dataMeter st) ->
             dataMeter (one_byte_after n st)
             = GoInt.wrap (dataMeter st + Z.of_nat n).
Proof.
  induction n as [|n IH]; intros st Hr.
  - simpl. now rewrite Z.add_0_r, wrap_small.
  - cbn [one_byte_after]. rewrite IH by apply wrap_in_range.
    cbn [one_byte_next dataMeter]. unfold GoInt.add. rewrite wrap_add_l.
    f_equal. lia.
Qed.

Lemma full_meter_is_reached :
  exists n st st',
    run n env_one_byte (initial_state zero_depth_viper) = Ok tt st /\
    dataMeter st = GoInt.MaxInt /\
    run (S n) env_one_byte (initial_state zero_depth_viper) = Ok tt st' /\
    dataMeter st' = GoInt.MinInt.
Proof.
  assert (H0 : GoInt.in_range (dataMeter (initial_state zero_depth_viper))).
  { split; vm_compute; discriminate. }
  assert (Hpos : 0 <= GoInt.MaxInt) by (vm_compute; discriminate).
  exists (Z.to_nat GoInt.MaxInt).
  exists (one_byte_after (Z.to_nat GoInt.MaxInt) (initial_state zero_depth_viper)).
  exists (one_byte_after (S (Z.to_nat GoInt.MaxInt)) (initial_state zero_depth_viper)).
  split; [apply one_byte_run; reflexivity|].
  split.
  - rewrite (one_byte_meter _ _ H0), (Z2Nat.id _ Hpos). reflexivity.
  - split; [apply one_byte_run; reflexivity|].
    rewrite (one_byte_meter _ _ H0), Nat2Z.inj_succ, (Z2Nat.id _ Hpos). reflexivity.
Qed.

(** ** The operations end *)

(** Given the fuel of its depth, [recursiveBrowse] returns or panics: the
    model never runs out of fuel. *)
Lemma recursiveBrowse_ends (env : Env) (url : string) (depth : Z) (st : State) :
  GoInt.in_range depth -> wf_state st ->
  exists st', ends_in (recursiveBrowse env url depth st) st'.
Proof.
  intros Hr Hwf.
  pose proof (browse_post (browse_fuel depth) env url depth st Hr Hwf (le_n _)) as HB.
  unfold recursiveBrowse.
  destruct (recursiveBrowse_fuel _ env url depth st) as [[] s|s|];
    [exists s; reflexivity | exists s; reflexivity | contradiction].
Qed.

Lemma run_ends (n : nat) (env : Env) (st : State) :
  wf_state st -> exists st', ends_in (run n env st) st'.
Proof.
  intros Hwf. pose proof (run_post n env st Hwf) as HR.
  destruct (run n env st) as [[] s|s|];
    [exists s; reflexivity | exists s; reflexivity | contradiction].
Qed.

(** ** The model at work *)

Example sample_page_matches :
  LinkRegex.FindAllString sample_page =
  [enclosed "http://a.example/x"; enclosed "https://facebook.com/y";
   enclosed "http://a.example/x"].
Proof. vm_compute. reflexivity. Qed.

Example sample_page_links :
  getLinks sample_page sample_state
  = Ok ["http://a.example/x"; "http://a.example/x"] sample_state.
Proof. vm_compute. reflexivity. Qed.

(** An occurrence that starts inside an earlier match is not a match of its
    own: the search resumes after the match. *)
Example overlapping_occurrence :
  getLinks ("href=" ++ String dquote ("http://a href=" ++ String dquote
             ("http://b" ++ String dquote "")))
           (with_viper (set_blacklist []) sample_state)
  = Ok ["http://a href="] (with_viper (set_blacklist []) sample_state).
Proof. vm_compute. reflexivity. Qed.

(** One traversal of depth 2 on a network that serves [sample_page]: three
    requests, the depths 2, 1 and 0, two sleeps drawn between 5 and 10 s. *)
Example sample_traversal :
  exists st',
    recursiveBrowse env_sample "https://www.example.com" 2 sample_state = Ok tt st' /\
    trace st' =
    [EvBrowse "https://www.example.com" 2; EvRequest "https://www.example.com";
     EvResponse 200 (Z.of_nat (String.length sample_page));
     EvSleep 5000000000;
     EvBrowse "http://a.example/x" 1; EvRequest "http://a.example/x";
     EvResponse 200 (Z.of_nat (String.length sample_page));
     EvSleep 7000000000;
     EvBrowse "http://a.example/x" 0; EvRequest "http://a.example/x";
     EvResponse 200 (Z.of_nat (String.length sample_page))] /\
    goodRequests st' = 3 /\ badRequests st' = 0 /\
    dataMeter st' = 3 * Z.of_nat (String.length sample_page).
Proof. eexists. repeat split; vm_compute; reflexivity. Qed.

(** * Further properties of the code *)

(** ** The shared configuration across operations *)

Lemma wrap_sub_r (a b : Z) : GoInt.wrap (a - GoInt.wrap b) = GoInt.wrap (a - b).
Proof.
  unfold GoInt.wrap.
  replace (a - ((b + 2 ^ (GoInt.bits - 1)) mod GoInt.modulus - 2 ^ (GoInt.bits - 1))
           + 2 ^ (GoInt.bits - 1))
    with (a + 2 ^ (GoInt.bits - 1) + 2 ^ (GoInt.bits - 1)
          - (b + 2 ^ (GoInt.bits - 1)) mod GoInt.modulus) by lia.
  rewrite Zminus_mod_idemp_r. f_equal. f_equal. lia.
Qed.

Lemma wrap_sub_l (a b : Z) : GoInt.wrap (GoInt.wrap a - b) = GoInt.wrap (a - b).
Proof.
  replace (GoInt.wrap a - b) with (GoInt.wrap a + - b) by lia.
  rewrite wrap_add_l. reflexivity.
Qed.

Lemma Frame_wait_span (st st' : State) (new : list Event) :
  wf_state st -> Frame st st' new -> wait_span st' = wait_span st.
Proof.
  intros (_ & _ & _ & Hmin & Hmax) (_ & _ & _ & _ & Fmin & Fmax & _).
  unfold wait_span, GoInt.sub. rewrite Fmin, Fmax, wrap_sub_r, wrap_sub_l.
  do 2 f_equal. lia.
Qed.

(** X9. The blacklist only grows: after any operation of the core it is the
    blacklist before with entries appended, and a link that was blacklisted
    stays so. *)
Theorem blacklist_only_grows (env : Env) (st st' : State) :
  wf_state st -> core_step env st st' ->
  (exists added, blacklist (viper st') = (blacklist (viper st) ++ added)%list) /\
  (forall link, isBlacklisted link st = true -> isBlacklisted link st' = true).
Proof.
  intros Hwf Hcs. destruct (core_step_Frame env st st' Hwf Hcs) as (new & F).
  destruct F as (_ & _ & _ & _ & _ & _ & _ & _ & _ & _ & (added & Hbl) & _).
  split; [now exists added|].
  intros link H. unfold isBlacklisted in *.
  rewrite Hbl, isBlacklisted_in_app, H. reflexivity.
Qed.

Lemma blacklist_only_grows_witness :
  wf_state sample_state /\
  core_step env_dead_end sample_state
    (blacklist_url "https://www.example.com"
       (snd (doRequest env_dead_end "https://www.example.com"
               (emit (EvBrowse "https://www.example.com" 3) sample_state)))) /\
  exists added,
    blacklist (viper (blacklist_url "https://www.example.com"
       (snd (doRequest env_dead_end "https://www.example.com"
               (emit (EvBrowse "https://www.example.com" 3) sample_state)))))
    = (blacklist (viper sample_state) ++ added)%list.
Proof.
  assert (Hstep : core_step env_dead_end sample_state
    (blacklist_url "https://www.example.com"
       (snd (doRequest env_dead_end "https://www.example.com"
               (emit (EvBrowse "https://www.example.com" 3) sample_state))))).
  { apply (step_recursiveBrowse env_dead_end "https://www.example.com" 3).
    - split; vm_compute; discriminate.
    - vm_compute. reflexivity. }
  split; [exact sample_state_wf|]. split; [exact Hstep|].
  exact (proj1 (blacklist_only_grows env_dead_end _ _ sample_state_wf Hstep)).
Defined.

(** X10. The width of the wait interval, [max_wait - min_wait] in Go's
    arithmetic, is the same after any operation of the core, also when a
    backoff makes a bound wrap around; and so is the argument of the draw of
    the sleep time. *)
Theorem wait_width_preserved (env : Env) (st st' : State) :
  wf_state st -> core_step env st st' ->
  GoInt.sub (max_wait (viper st')) (min_wait (viper st'))
  = GoInt.sub (max_wait (viper st)) (min_wait (viper st)) /\
  wait_span st' = wait_span st.
Proof.
  intros Hwf Hcs. destruct (core_step_Frame env st st' Hwf Hcs) as (new & F).
  pose proof (Frame_wait_span st st' new Hwf F) as Hspan.
  split; [|exact Hspan].
  destruct Hwf as (_ & _ & _ & Hmin & Hmax).
  destruct F as (_ & _ & _ & _ & Fmin & Fmax & _).
  unfold GoInt.sub. rewrite Fmin, Fmax, wrap_sub_r, wrap_sub_l. f_equal. lia.
Qed.

Lemma max_wait_state_wf : wf_state (initial_state max_wait_viper).
Proof.
  unfold wf_state, GoInt.in_range. simpl. repeat split; vm_compute; discriminate.
Qed.

Lemma wait_width_preserved_witness :
  wf_state (initial_state max_wait_viper) /\
  core_step env_429 (initial_state max_wait_viper)
            (snd (doRequest env_429 "https://www.example.com"
                            (initial_state max_wait_viper))) /\
  GoInt.sub
    (max_wait (viper (snd (doRequest env_429 "https://www.example.com"
                                     (initial_state max_wait_viper)))))
    (min_wait (viper (snd (doRequest env_429 "https://www.example.com"
                                     (initial_state max_wait_viper)))))
  = GoInt.sub (max_wait (viper (initial_state max_wait_viper)))
              (min_wait (viper (initial_state max_wait_viper))).
Proof.
  split; [exact max_wait_state_wf|]. split; [apply step_doRequest|].
  exact (proj1 (wait_width_preserved env_429 _ _ max_wait_state_wf
                  (step_doRequest env_429 "https://www.example.com" _))).
Defined.

(** X11. No operation of the core writes the root URLs or the user agent. *)
Theorem roots_and_agent_kept (env : Env) (st st' : State) :
  wf_state st -> core_step env st st' ->
  root_urls (viper st') = root_urls (viper st) /\
  user_agent (viper st') = user_agent (viper st).
Proof.
  intros Hwf Hcs. destruct (core_step_Frame env st st' Hwf Hcs) as (new & F).
  destruct F as (_ & _ & _ & _ & _ & _ & _ & _ & Hr & Hu & _). now split.
Qed.

Lemma roots_and_agent_kept_witness :
  wf_state sample_state /\
  core_step env_429 sample_state
            (snd (doRequest env_429 "https://www.example.com" sample_state)) /\
  root_urls (viper (snd (doRequest env_429 "https://www.example.com" sample_state)))
  = root_urls (viper sample_state) /\
  user_agent (viper (snd (doRequest env_429 "https://www.example.com" sample_state)))
  = user_agent (viper sample_state).
Proof.
  split; [exact sample_state_wf|]. split; [apply step_doRequest|].
  exact (roots_and_agent_kept env_429 _ _ sample_state_wf
           (step_doRequest env_429 "https://www.example.com" _)).
Defined.

(** ** The link extractor with a blacklist *)

(** X12. Whatever the blacklist, [getLinks] does not panic and leaves the state
    as it is; it returns the extracted URLs that are not blacklisted, in
    their order: each link returned is a URL of the pattern that
    [isBlacklisted] lets through, and each extracted URL that it lets
    through is returned. *)
Theorem getLinks_keeps_valid_links (content : string) (st : State) :
  exists urls,
    Extracts content urls /\
    getLinks content st = Ok (filter (fun u => negb (isBlacklisted u st)) urls) st /\
    (forall link,
        In link (filter (fun u => negb (isBlacklisted u st)) urls) <->
        In link urls /\ isBlacklisted link st = false) /\
    Forall LinkURL (filter (fun u => negb (isBlacklisted u st)) urls).
Proof.
  destruct (getLinks_spec content st) as (urls & Hex & E).
  exists urls. split; [exact Hex|]. split; [exact E|]. split.
  - intros link. rewrite filter_In, negb_true_iff. reflexivity.
  - apply Forall_forall. intros u Hin. apply filter_In in Hin.
    pose proof (Extracts_LinkURL _ _ Hex) as HF.
    rewrite Forall_forall in HF. now apply HF.
Qed.

(** X13. An empty string among the blacklist entries blacklists every link, so
    every page is without valid links. *)
Theorem empty_entry_blacklists_all (st : State) :
  In "" (blacklist (viper st)) ->
  (forall link, isBlacklisted link st = true) /\
  (forall content, getLinks content st = Ok [] st).
Proof.
  intros Hin.
  assert (Hall : forall link, isBlacklisted link st = true).
  { intros link. apply isBlacklisted_in_iff. exists "". split; [exact Hin|].
    exists "", link. reflexivity. }
  split; [exact Hall|].
  intros content. destruct (getLinks_spec content st) as (urls & _ & ->).
  f_equal. induction urls as [|u urls IH]; [reflexivity|].
  simpl. now rewrite Hall.
Qed.

Lemma empty_entry_blacklists_all_witness :
  In "" (blacklist (viper (with_viper (set_blacklist [""]) sample_state))) /\
  getLinks sample_page (with_viper (set_blacklist [""]) sample_state)
  = Ok [] (with_viper (set_blacklist [""]) sample_state).
Proof.
  split; [now left|].
  apply (empty_entry_blacklists_all (with_viper (set_blacklist [""]) sample_state)).
  now left.
Defined.

(** ** Errors in the traversal *)

(** X14. At depth 0 the result of the request is dropped: whatever the exchange
    gives, an error too, the call returns and the blacklist is what it
    was. *)
Theorem leaf_never_blacklists (env : Env) (url : string) (st : State) :
  recursiveBrowse env url 0 st
  = Ok tt (snd (doRequest env url (emit (EvBrowse url 0) st))) /\
  blacklist (viper (snd (doRequest env url (emit (EvBrowse url 0) st))))
  = blacklist (viper st).
Proof.
  split.
  - unfold recursiveBrowse. rewrite browse_unfold. reflexivity.
  - now rewrite doRequest_blacklist.
Qed.

(** X15. At any depth other than 0, every error of [doRequest], whether the
    request could not be built, the transport failed or the body could not
    be read, ends the call after that one request with the URL appended to
    the blacklist. *)
Theorem any_error_blacklists (env : Env) (url : string) (depth : Z)
        (st st1 : State) (content : string) (e : error) :
  depth <> 0 ->
  doRequest env url (emit (EvBrowse url depth) st) = ((content, Some e), st1) ->
  recursiveBrowse env url depth st = Ok tt (blacklist_url url st1) /\
  blacklist (viper (blacklist_url url st1)) = (blacklist (viper st) ++ [url])%list /\
  requests (trace (blacklist_url url st1)) = (requests (trace st) ++ [url])%list /\
  browse_depths (trace (blacklist_url url st1))
  = (browse_depths (trace st) ++ [depth])%list.
Proof.
  intros Hd Hreq.
  pose proof (doRequest_blacklist env url (emit (EvBrowse url depth) st)) as Hbl.
  pose proof (doRequest_trace env url (emit (EvBrowse url depth) st)) as Htr.
  rewrite Hreq in Hbl, Htr. simpl in Hbl, Htr.
  destruct (Quiet_exchange (exchange_of env url (emit (EvBrowse url depth) st)) false)
    as (R & B & _).
  split; [|split; [|split]].
  - unfold recursiveBrowse. rewrite browse_unfold. cbv zeta. rewrite Hreq.
    destruct (Z.eqb_spec depth 0) as [E|_]; [contradiction|]. reflexivity.
  - simpl. now rewrite Hbl.
  - simpl. rewrite Htr, <- app_assoc, !requests_app. simpl. now rewrite R.
  - simpl. rewrite Htr, <- app_assoc, !browse_depths_app. simpl. now rewrite B.
Qed.

Lemma any_error_blacklists_witness :
  -1 <> 0 /\
  recursiveBrowse (mkEnv (fun _ _ _ => ReadError "<html") (fun _ => 0))
                  "https://www.example.com" (-1) sample_state
  = Ok tt (blacklist_url "https://www.example.com"
             (snd (doRequest (mkEnv (fun _ _ _ => ReadError "<html") (fun _ => 0))
                     "https://www.example.com"
                     (emit (EvBrowse "https://www.example.com" (-1)) sample_state)))).
Proof.
  split; [discriminate|].
  exact (proj1 (any_error_blacklists
                  (mkEnv (fun _ _ _ => ReadError "<html") (fun _ => 0))
                  "https://www.example.com" (-1) sample_state _ "<html" ErrRead
                  ltac:(discriminate) eq_refl)).
Defined.

(** ** Draws *)

Lemma Intn_ok (env : Env) (n : Z) (st : State) :
  0 < n -> Intn env n st = Ok (rand_src env (ndraw st) mod n) (count_draw st).
Proof.
  intros Hn. unfold Intn. destruct (Z.leb_spec n 0) as [H|_]; [lia | reflexivity].
Qed.

Lemma Intn_panic (env : Env) (n : Z) (st : State) :
  n <= 0 -> Intn env n st = Panic st.
Proof.
  intros Hn. unfold Intn. destruct (Z.leb_spec n 0) as [_|H]; [reflexivity | lia].
Qed.

Lemma index_ok {A} (l : list A) (i : Z) (st : State) :
  0 <= i < len l -> exists a, index l i st = Ok a st /\ In a l.
Proof.
  intros [H0 Hlt]. unfold index, len in *.
  destruct (Z.ltb_spec i 0) as [H|_]; [lia|].
  destruct (nth_error l (Z.to_nat i)) as [a|] eqn:E.
  - exists a. split; [reflexivity|]. now apply nth_error_In in E.
  - apply nth_error_None in E. lia.
Qed.

Lemma len_pos {A} (l : list A) : l <> [] -> 0 < len l.
Proof. destruct l; [congruence|]. intros _. unfold len. simpl. lia. Qed.

Lemma Frame_count_draw (st : State) : wf_state st -> Frame st (count_draw st) [].
Proof.
  intros Hwf. apply Frame_quiet; try reflexivity; try assumption.
  - simpl. now rewrite app_nil_r.
  - exists []. simpl. now rewrite app_nil_r.
  - simpl. lia.
Qed.

Lemma Frame_hop (env : Env) (st1 : State) :
  wf_state st1 ->
  Frame st1 (hop_state env st1) [EvSleep (GoInt.mul (hop_sleepTime env st1) Second)].
Proof.
  intros Hwf. unfold hop_state.
  pose proof (Frame_count_draw st1 Hwf) as F1.
  pose proof (Frame_Sleep (hop_sleepTime env st1) _ (Frame_wf _ _ _ F1)) as F2.
  pose proof (Frame_count_draw _ (Frame_wf _ _ _ F2)) as F3.
  pose proof (Frame_trans _ _ _ _ _ (Frame_trans _ _ _ _ _ F1 F2) F3) as F.
  simpl in F. exact F.
Qed.

(** One hop of the traversal: a call at a depth other than 0 whose request
    gave a page with valid links, in a state where the draw of the sleep
    time does not panic, sleeps and calls itself on one of the valid links
    with the depth minus one. *)
Lemma browse_hop (fuel : nat) (env : Env) (url : string) (depth : Z)
      (st st1 : State) (content : string) (validLinks : list string) :
  depth <> 0 ->
  doRequest env url (emit (EvBrowse url depth) st) = ((content, None), st1) ->
  getLinks content st1 = Ok validLinks st1 ->
  validLinks <> [] -> 0 < wait_span st1 ->
  exists next,
    In next validLinks /\
    recursiveBrowse_fuel (S fuel) env url depth st
    = recursiveBrowse_fuel fuel env next (GoInt.sub depth 1) (hop_state env st1).
Proof.
  intros Hd Hreq Hlinks Hne Hspan.
  pose proof (len_pos validLinks Hne) as Hlen.
  destruct (index_ok validLinks (hop_index env st1 validLinks) (hop_state env st1))
    as (next & Hidx & Hin).
  { unfold hop_index. apply Z.mod_pos_bound. exact Hlen. }
  exists next. split; [exact Hin|].
  rewrite browse_unfold. cbv zeta. rewrite Hreq.
  destruct (Z.eqb_spec depth 0) as [E|_]; [contradiction|].
  simpl fst. simpl snd. rewrite Hlinks.
  destruct (Z.eqb_spec (len validLinks) 0) as [E|_]; [lia|].
  fold (wait_span st1). rewrite (Intn_ok env _ st1 Hspan).
  rewrite (Intn_ok env (len validLinks) _ Hlen).
  change (index validLinks _ _) with
    (index validLinks (hop_index env st1 validLinks) (hop_state env st1)).
  rewrite Hidx. reflexivity.
Qed.

(** ** The traversal never panics on a sane configuration *)

Lemma browse_never_panics (fuel : nat) :
  forall (env : Env) (url : string) (depth : Z) (st : State),
    GoInt.in_range depth -> wf_state st -> 0 < wait_span st ->
    (browse_fuel depth <= fuel)%nat ->
    exists st', recursiveBrowse_fuel fuel env url depth st = Ok tt st'.
Proof.
  induction fuel as [|fuel IH]; intros env url depth st Hr Hwf Hspan Hfuel.
  all: assert (F0 : Frame st (emit (EvBrowse url depth) st) [EvBrowse url depth])
         by (now apply Frame_emit).
  all: pose proof (doRequest_Frame env url _ (Frame_wf _ _ _ F0)) as F1.
  all: destruct (doRequest env url (emit (EvBrowse url depth) st))
         as [[content err] st1] eqn:Hreq; simpl snd in F1.
  all: pose proof (Frame_trans _ _ _ _ _ F0 F1) as F01.
  all: pose proof (Frame_wf _ _ _ F01) as Hwf1.
  all: pose proof (Frame_wait_span _ _ _ Hwf F01) as Hs1.
  all: destruct (getLinks_spec content st1) as (urls & _ & Hlinks).
  all: destruct (Z.eq_dec depth 0) as [Hz|Hnz];
       [rewrite browse_unfold; cbv zeta; rewrite Hreq; subst depth; simpl;
        eexists; reflexivity|].
  all: destruct err as [e|];
       [rewrite browse_unfold; cbv zeta; rewrite Hreq;
        destruct (Z.eqb_spec depth 0) as [E|_]; [contradiction|];
        simpl; eexists; reflexivity|].
  all: destruct (filter (fun u => negb (isBlacklisted u st1)) urls)
         as [|v validLinks] eqn:Hf;
       [rewrite browse_unfold; cbv zeta; rewrite Hreq;
        destruct (Z.eqb_spec depth 0) as [E|_]; [contradiction|];
        simpl fst; simpl snd; rewrite Hlinks; simpl; eexists; reflexivity|].
  - rewrite (browse_fuel_pred depth Hr Hnz) in Hfuel. lia.
  - destruct (browse_hop fuel env url depth st st1 content (v :: validLinks)
                Hnz Hreq Hlinks ltac:(discriminate) ltac:(lia)) as (next & _ & ->).
    rewrite (browse_fuel_pred depth Hr Hnz) in Hfuel.
    pose proof (Frame_hop env st1 Hwf1) as Fh.
    apply IH; [apply wrap_in_range | exact (Frame_wf _ _ _ Fh) | | lia].
    rewrite (Frame_wait_span _ _ _ Hwf1 Fh). lia.
Qed.

Lemma sane_spans (st : State) :
  wf_state st -> sane_config st -> 0 < depth_span st /\ 0 < wait_span st.
Proof.
  intros (_ & _ & _ & Hmin & Hmax) (_ & Hnd & Hxd & Hd & Hdw & Hw & Hww).
  unfold depth_span, wait_span, GoInt.add, GoInt.sub.
  unfold GoInt.in_range, GoInt.MinInt, GoInt.MaxInt in *.
  rewrite (wrap_small (max_depth (viper st) - min_depth (viper st))),
    (wrap_small (max_wait (viper st) - min_wait (viper st)))
    by (unfold GoInt.in_range, GoInt.MinInt, GoInt.MaxInt; lia).
  rewrite !wrap_small by (unfold GoInt.in_range, GoInt.MinInt, GoInt.MaxInt; lia).
  lia.
Qed.

(** More fuel changes nothing once the traversal has ended: a deeper stack
    gives the same run. *)
Lemma browse_fuel_mono (f : nat) :
  forall (f' : nat) (env : Env) (url : string) (depth : Z) (st : State),
    (f <= f')%nat ->
    recursiveBrowse_fuel f env url depth st <> OutOfFuel ->
    recursiveBrowse_fuel f' env url depth st = recursiveBrowse_fuel f env url depth st.
Proof.
  induction f as [|f IH]; intros f' env url depth st Hle Hne;
    rewrite browse_unfold in Hne; rewrite (browse_unfold f'), (browse_unfold _ env);
    cbv zeta in *;
    destruct (depth =? 0); try reflexivity;
    destruct (snd (fst (doRequest env url (emit (EvBrowse url depth) st))));
    try reflexivity;
    destruct (getLinks _ _) as [validLinks st2| |]; try reflexivity;
    destruct (len validLinks =? 0); try reflexivity;
    destruct (Intn env _ st2) as [n st3| |]; try reflexivity;
    destruct (Intn env _ _) as [i st5| |]; try reflexivity;
    destruct (index validLinks i st5) as [next st6| |]; try reflexivity.
  - congruence.
  - destruct f' as [|f']; [lia|]. apply IH; [lia | exact Hne].
Qed.

(** Whatever the stack holds, a traversal that ends has done what
    [BrowsePost] says. *)
Lemma browse_post_any (fuel : nat) (env : Env) (url : string) (depth : Z) (st : State) :
  GoInt.in_range depth -> wf_state st ->
  match recursiveBrowse_fuel fuel env url depth st with
  | Ok _ st' => BrowsePost st url depth st'
  | Panic st' => BrowsePost st url depth st'
  | OutOfFuel => True
  end.
Proof.
  intros Hr Hwf.
  pose proof (browse_post (Nat.max fuel (browse_fuel depth)) env url depth st Hr Hwf
                (Nat.le_max_r _ _)) as HB.
  destruct (recursiveBrowse_fuel fuel env url depth st) as [[] s|s|] eqn:E;
    [| |exact I];
    rewrite (browse_fuel_mono fuel _ env url depth st (Nat.le_max_l _ _)) in HB
      by (rewrite E; discriminate);
    rewrite E in HB; exact HB.
Qed.

(** The hop of [browse_hop], on any stack: with no room for one more call
    the stack overflows. *)
Lemma browse_hop_any (env : Env) (url : string) (depth : Z)
      (st st1 : State) (content : string) (validLinks : list string) :
  depth <> 0 ->
  doRequest env url (emit (EvBrowse url depth) st) = ((content, None), st1) ->
  getLinks content st1 = Ok validLinks st1 ->
  validLinks <> [] -> 0 < wait_span st1 ->
  exists next,
    In next validLinks /\
    forall fuel,
      recursiveBrowse_fuel fuel env url depth st
      = match fuel with
        | O => OutOfFuel
        | S fuel' =>
            recursiveBrowse_fuel fuel' env next (GoInt.sub depth 1) (hop_state env st1)
        end.
Proof.
  intros Hd Hreq Hlinks Hne Hspan.
  pose proof (len_pos validLinks Hne) as Hlen.
  destruct (index_ok validLinks (hop_index env st1 validLinks) (hop_state env st1))
    as (next & Hidx & Hin).
  { unfold hop_index. apply Z.mod_pos_bound. exact Hlen. }
  exists next. split; [exact Hin|]. intros fuel.
  rewrite browse_unfold. cbv zeta. rewrite Hreq.
  destruct (Z.eqb_spec depth 0) as [E|_]; [contradiction|].
  simpl fst. simpl snd. rewrite Hlinks.
  destruct (Z.eqb_spec (len validLinks) 0) as [E|_]; [lia|].
  fold (wait_span st1). rewrite (Intn_ok env _ st1 Hspan).
  rewrite (Intn_ok env (len validLinks) _ Hlen).
  change (index validLinks _ _) with
    (index validLinks (hop_index env st1 validLinks) (hop_state env st1)).
  rewrite Hidx. destruct fuel; reflexivity.
Qed.

(** With the draw of the sleep time in order, a traversal does not panic,
    whatever its depth and whatever the stack holds. *)
Lemma browse_no_panic (fuel : nat) :
  forall (env : Env) (url : string) (depth : Z) (st : State),
    wf_state st -> 0 < wait_span st ->
    ~ panics (recursiveBrowse_fuel fuel env url depth st).
Proof.
  induction fuel as [|fuel IH]; intros env url depth st Hwf Hspan.
  all: assert (F0 : Frame st (emit (EvBrowse url depth) st) [EvBrowse url depth])
         by (now apply Frame_emit).
  all: pose proof (doRequest_Frame env url _ (Frame_wf _ _ _ F0)) as F1.
  all: destruct (doRequest env url (emit (EvBrowse url depth) st))
         as [[content err] st1] eqn:Hreq; simpl snd in F1.
  all: pose proof (Frame_trans _ _ _ _ _ F0 F1) as F01.
  all: pose proof (Frame_wf _ _ _ F01) as Hwf1.
  all: pose proof (Frame_wait_span _ _ _ Hwf F01) as Hs1.
  all: destruct (getLinks_spec content st1) as (urls & _ & Hlinks).
  all: destruct (Z.eq_dec depth 0) as [Hz|Hnz];
       [rewrite browse_unfold; cbv zeta; rewrite Hreq; subst depth; simpl;
        intros []|].
  all: destruct err as [e|];
       [rewrite browse_unfold; cbv zeta; rewrite Hreq;
        destruct (Z.eqb_spec depth 0) as [E|_]; [contradiction|];
        simpl; intros []|].
  all: destruct (filter (fun u => negb (isBlacklisted u st1)) urls)
         as [|v validLinks] eqn:Hf;
       [rewrite browse_unfold; cbv zeta; rewrite Hreq;
        destruct (Z.eqb_spec depth 0) as [E|_]; [contradiction|];
        simpl fst; simpl snd; rewrite Hlinks; simpl; intros []|].
  all: destruct (browse_hop_any env url depth st st1 content (v :: validLinks)
                  Hnz Hreq Hlinks ltac:(discriminate) ltac:(lia)) as (next & _ & E);
       rewrite E.
  - intros [].
  - pose proof (Frame_hop env st1 Hwf1) as Fh.
    apply IH; [exact (Frame_wf _ _ _ Fh)|].
    rewrite (Frame_wait_span _ _ _ Hwf1 Fh). lia.
Qed.

Lemma run_iteration_on_unfold (stack : nat) (env : Env) (st : State) :
  run_iteration_on stack env st =
  match Intn env (len (root_urls (viper st))) st with
  | Ok i s1 =>
      match index (root_urls (viper st)) i s1 with
      | Ok randomURL s2 =>
          match Intn env (depth_span s2) s2 with
          | Ok d s3 =>
              match recursiveBrowse_fuel stack env randomURL
                      (GoInt.add d (min_depth (viper s3)))
                      (emit (EvRoot randomURL) s3) with
              | Ok _ s5 => Ok tt (Sleep_seconds 10 s5)
              | Panic s => Panic s
              | OutOfFuel => OutOfFuel
              end
          | Panic s => Panic s
          | OutOfFuel => OutOfFuel
          end
      | Panic s => Panic s
      | OutOfFuel => OutOfFuel
      end
  | Panic s => Panic s
  | OutOfFuel => OutOfFuel
  end.
Proof.
  unfold run_iteration_on, bind, get, modify, depth_span. cbv beta iota.
  destruct (Intn env (len (root_urls (viper st))) st) as [i s1| |]; reflexivity.
Qed.

(** One iteration: the draws of the root and of the depth, then the
    traversal from a state that is [st] two draws and one event later; the
    same on a bounded stack and on an unbounded one. *)
Lemma iteration_draws (stack : nat) (env : Env) (st : State) :
  root_urls (viper st) <> [] -> 0 < depth_span st ->
  exists root,
    In root (root_urls (viper st)) /\
    run_iteration_on stack env st =
    match recursiveBrowse_fuel stack env root
            (GoInt.add (rand_src env (S (ndraw st)) mod depth_span st)
                       (min_depth (viper st)))
            (emit (EvRoot root) (count_draw (count_draw st))) with
    | Ok _ s5 => Ok tt (Sleep_seconds 10 s5)
    | Panic s => Panic s
    | OutOfFuel => OutOfFuel
    end /\
    run_iteration env st =
    match recursiveBrowse env root
            (GoInt.add (rand_src env (S (ndraw st)) mod depth_span st)
                       (min_depth (viper st)))
            (emit (EvRoot root) (count_draw (count_draw st))) with
    | Ok _ s5 => Ok tt (Sleep_seconds 10 s5)
    | Panic s => Panic s
    | OutOfFuel => OutOfFuel
    end.
Proof.
  intros Hroots Hds.
  destruct (index_ok (root_urls (viper st))
              (rand_src env (ndraw st) mod len (root_urls (viper st)))
              (count_draw st)) as (root & E & Hin).
  { apply Z.mod_pos_bound. now apply len_pos. }
  exists root. split; [exact Hin|]. split.
  - rewrite run_iteration_on_unfold.
    rewrite (Intn_ok env _ st (len_pos _ Hroots)), E.
    change (depth_span (count_draw st)) with (depth_span st).
    rewrite (Intn_ok env _ (count_draw st) Hds). reflexivity.
  - rewrite run_iteration_unfold.
    rewrite (Intn_ok env _ st (len_pos _ Hroots)), E.
    change (GoInt.add (GoInt.sub (max_depth (viper (count_draw st)))
                                 (min_depth (viper (count_draw st)))) 1)
      with (depth_span st).
    rewrite (Intn_ok env _ (count_draw st) Hds). reflexivity.
Qed.

(** The invariant of the driver loop on a bounded stack: an iteration does
    not panic, and when it returns the next one starts as well placed. *)
Lemma run_iteration_on_safe (stack : nat) (env : Env) (st : State) :
  wf_state st -> root_urls (viper st) <> [] ->
  0 < depth_span st -> 0 < wait_span st ->
  match run_iteration_on stack env st with
  | Ok _ st' =>
      wf_state st' /\ root_urls (viper st') = root_urls (viper st) /\
      min_depth (viper st') = min_depth (viper st) /\
      max_depth (viper st') = max_depth (viper st) /\
      wait_span st' = wait_span st
  | Panic _ => False
  | OutOfFuel => True
  end.
Proof.
  intros Hwf Hroots Hds Hws.
  destruct (iteration_draws stack env st Hroots Hds) as (root & _ & -> & _).
  set (depth := GoInt.add (rand_src env (S (ndraw st)) mod depth_span st)
                          (min_depth (viper st))).
  set (s3 := emit (EvRoot root) (count_draw (count_draw st))).
  pose proof (browse_no_panic stack env root depth s3 Hwf Hws) as Hnp.
  pose proof (browse_post_any stack env root depth s3 (wrap_in_range _) Hwf) as HB.
  destruct (recursiveBrowse_fuel stack env root depth s3) as [[] s5|s5|];
    [|exact (Hnp I)|exact I].
  destruct HB as (rest & F & _).
  pose proof (Frame_Sleep 10 s5 (Frame_wf _ _ _ F)) as Fs.
  pose proof (Frame_trans _ _ _ _ _ F Fs) as F'.
  split; [exact (Frame_wf _ _ _ F')|].
  pose proof (Frame_wait_span s3 _ _ Hwf F') as Hs.
  destruct F' as (_ & _ & _ & _ & _ & _ & Fnd & Fxd & Fr & _).
  split; [exact Fr|]. split; [exact Fnd|]. split; [exact Fxd | exact Hs].
Qed.

Lemma run_on_no_panic (stack n : nat) (env : Env) :
  forall st, wf_state st -> root_urls (viper st) <> [] ->
             0 < depth_span st -> 0 < wait_span st ->
             ~ panics (run_on stack n env st).
Proof.
  induction n as [|n IH]; intros st Hwf Hroots Hds Hws; simpl; [intros []|].
  unfold bind.
  pose proof (run_iteration_on_safe stack env st Hwf Hroots Hds Hws) as H1.
  destruct (run_iteration_on stack env st) as [[] st1|st1|];
    [|destruct H1|intros []].
  destruct H1 as (Hwf1 & Hr1 & Hnd & Hxd & Hw1).
  apply IH; [exact Hwf1 | now rewrite Hr1 | | now rewrite Hw1].
  unfold depth_span in *. now rewrite Hnd, Hxd.
Qed.

(** With depths that the stack can hold, an iteration returns, and it is
    the iteration of [run_iteration]. *)
Lemma run_iteration_on_returns (stack : nat) (env : Env) (st : State) :
  wf_state st -> root_urls (viper st) <> [] -> 0 < wait_span st ->
  0 <= min_depth (viper st) -> min_depth (viper st) <= max_depth (viper st) ->
  max_depth (viper st) <= GoInt.MaxInt ->
    max_depth (viper st) - min_depth (viper st) < GoInt.MaxInt ->
    max_depth (viper st) <= Z.of_nat stack ->
  exists st',
    run_iteration_on stack env st = Ok tt st' /\
    run_iteration env st = Ok tt st' /\
    wf_state st' /\ root_urls (viper st') = root_urls (viper st) /\
    min_depth (viper st') = min_depth (viper st) /\
    max_depth (viper st') = max_depth (viper st) /\
    wait_span st' = wait_span st.
Proof.
  intros Hwf Hroots Hws H0 Hle Hmax Hdw Hstack.
  assert (HM : GoInt.MaxInt = 9223372036854775807) by reflexivity.
  assert (Hds : depth_span st = max_depth (viper st) - min_depth (viper st) + 1).
  { unfold depth_span, GoInt.add, GoInt.sub.
    rewrite (wrap_small (max_depth (viper st) - min_depth (viper st)))
      by (unfold GoInt.in_range, GoInt.MinInt; rewrite HM; simpl; lia).
    apply wrap_small. unfold GoInt.in_range, GoInt.MinInt. rewrite HM. simpl. lia. }
  assert (Hpos : 0 < depth_span st) by lia.
  pose proof (run_iteration_on_safe stack env st Hwf Hroots Hpos Hws) as Hsafe.
  destruct (iteration_draws stack env st Hroots Hpos) as (root & _ & E & E').
  pose proof (Z.mod_pos_bound (rand_src env (S (ndraw st))) (depth_span st) Hpos) as Hd.
  set (d := rand_src env (S (ndraw st)) mod depth_span st) in *.
  assert (Hdepth : GoInt.add d (min_depth (viper st)) = d + min_depth (viper st)).
  { apply wrap_small. unfold GoInt.in_range, GoInt.MinInt. rewrite HM. simpl. lia. }
  rewrite Hdepth in E, E'. set (depth := d + min_depth (viper st)) in *.
  assert (Hrange : 0 <= depth <= GoInt.MaxInt) by (unfold depth; lia).
  assert (Hir : GoInt.in_range depth).
  { unfold GoInt.in_range, GoInt.MinInt. simpl. lia. }
  assert (Hfuel : (browse_fuel depth <= stack)%nat).
  { rewrite (browse_fuel_nonneg depth Hrange). unfold depth. lia. }
  set (s3 := emit (EvRoot root) (count_draw (count_draw st))) in *.
  destruct (browse_never_panics (browse_fuel depth) env root depth s3 Hir Hwf Hws
              (le_n _)) as (s5 & E5).
  assert (E5' : recursiveBrowse_fuel stack env root depth s3 = Ok tt s5).
  { rewrite (browse_fuel_mono _ stack env root depth s3 Hfuel)
      by (rewrite E5; discriminate). exact E5. }
  unfold recursiveBrowse in E'. rewrite E5 in E'. rewrite E5' in E.
  rewrite E in Hsafe. exists (Sleep_seconds 10 s5).
  split; [exact E|]. split; [exact E'|]. exact Hsafe.
Qed.

Lemma run_on_returns (stack n : nat) (env : Env) :
  forall st,
    wf_state st -> root_urls (viper st) <> [] -> 0 < wait_span st ->
    0 <= min_depth (viper st) -> min_depth (viper st) <= max_depth (viper st) ->
    max_depth (viper st) <= GoInt.MaxInt ->
    max_depth (viper st) - min_depth (viper st) < GoInt.MaxInt ->
    max_depth (viper st) <= Z.of_nat stack ->
    exists st', run_on stack n env st = Ok tt st' /\ run n env st = Ok tt st'.
Proof.
  induction n as [|n IH]; intros st Hwf Hroots Hws H0 Hle Hmax Hdw Hstack; simpl.
  - eexists. split; reflexivity.
  - destruct (run_iteration_on_returns stack env st Hwf Hroots Hws H0 Hle Hmax Hdw Hstack)
      as (st1 & E & E' & Hwf1 & Hr1 & Hnd & Hxd & Hw1).
    destruct (IH st1 Hwf1 ltac:(now rewrite Hr1) ltac:(now rewrite Hw1)
                 ltac:(now rewrite Hnd) ltac:(now rewrite Hnd, Hxd)
                 ltac:(now rewrite Hxd) ltac:(now rewrite Hnd, Hxd)
                 ltac:(now rewrite Hxd))
      as (st' & En & En').
    exists st'. unfold bind. rewrite E, E'. now split.
Qed.

(** X2. With roots to start from and bounds in order, the driver loop and
    the traversal never panic, whatever the network answers, whatever the
    random source draws and however many nested calls the stack holds: the
    one thing that can stop them is the stack overflow of a traversal
    deeper than the stack.  When the depth bounds are not negative and
    [max_depth] is within what the stack holds, every iteration returns,
    and the loop on that stack is the loop of [run]. *)
Theorem run_never_panics (stack : nat) (env : Env) (st : State) :
  wf_state st -> sane_config st ->
  (forall n, ~ panics (run_on stack n env st)) /\
  (forall url depth, ~ panics (recursiveBrowse_fuel stack env url depth st)) /\
  (0 <= min_depth (viper st) -> max_depth (viper st) <= Z.of_nat stack ->
   forall n, exists st', run_on stack n env st = Ok tt st' /\
                         run n env st = Ok tt st').
Proof.
  intros Hwf Hsane. destruct (sane_spans st Hwf Hsane) as [Hds Hws].
  destruct Hsane as (Hroots & Hnd & Hxd & Hle & Hdw & _).
  split; [|split].
  - intros n. now apply run_on_no_panic.
  - intros url depth. now apply browse_no_panic.
  - intros H0 Hstack n.
    apply run_on_returns; try assumption. exact (proj2 Hxd).
Qed.

Lemma sample_config_sane : sane_config sample_state.
Proof.
  unfold sane_config, GoInt.in_range. simpl.
  repeat split; try discriminate; vm_compute; discriminate.
Qed.

Lemma run_never_panics_witness :
  wf_state sample_state /\ sane_config sample_state /\
  ~ panics (run_on 5 3 env_sample sample_state) /\
  exists st', run_on 1000 3 env_sample sample_state = Ok tt st' /\
              run 3 env_sample sample_state = Ok tt st'.
Proof.
  split; [exact sample_state_wf|]. split; [exact sample_config_sane|]. split.
  - exact (proj1 (run_never_panics 5 env_sample sample_state sample_state_wf
                    sample_config_sane) 3%nat).
  - apply (proj2 (proj2 (run_never_panics 1000 env_sample sample_state
                           sample_state_wf sample_config_sane))).
    + vm_compute. discriminate.
    + vm_compute. discriminate.
Defined.

(** ** The depth bound is reached *)

Lemma doRequest_Response (env : Env) (url : string) (st : State)
      (StatusCode : Z) (content : string) :
  exchange_of env url st = Response StatusCode content ->
  fst (doRequest env url st) = (content, None).
Proof.
  unfold exchange_of, doRequest. intros ->. reflexivity.
Qed.

Lemma browse_fuel_zero (depth : Z) :
  GoInt.in_range depth -> browse_fuel depth = 0%nat -> depth = 0.
Proof.
  intros Hr H0. destruct (Z.eq_dec depth 0) as [E|Hne]; [exact E|].
  rewrite (browse_fuel_pred depth Hr Hne) in H0. discriminate.
Qed.

Lemma full_depth (env : Env) (fuel : nat) :
  forall (url : string) (depth : Z) (st : State),
    GoInt.in_range depth -> wf_state st -> 0 < wait_span st ->
    AlwaysLinks env (blacklist (viper st)) ->
    browse_fuel depth = fuel ->
    exists st' new,
      recursiveBrowse_fuel fuel env url depth st = Ok tt st' /\
      Frame st st' new /\
      List.length (requests new) = S fuel /\
      blacklist (viper st') = blacklist (viper st).
Proof.
  induction fuel as [|fuel IH]; intros url depth st Hr Hwf Hspan Hal Hfuel.
  all: assert (F0 : Frame st (emit (EvBrowse url depth) st) [EvBrowse url depth])
         by (now apply Frame_emit).
  all: pose proof (doRequest_Frame env url _ (Frame_wf _ _ _ F0)) as F1.
  all: pose proof (doRequest_blacklist env url (emit (EvBrowse url depth) st)) as B1.
  all: change (blacklist (viper (emit (EvBrowse url depth) st)))
         with (blacklist (viper st)) in B1.
  all: pose proof (Frame_trans _ _ _ _ _ F0 F1) as F01; simpl app in F01.
  all: destruct (Quiet_exchange (exchange_of env url (emit (EvBrowse url depth) st))
                                false) as (R & _).
  - pose proof (browse_fuel_zero depth Hr Hfuel) as ->.
    exists (snd (doRequest env url (emit (EvBrowse url 0) st))). eexists.
    split; [rewrite browse_unfold; reflexivity|]. split; [exact F01|].
    split; [simpl; now rewrite R | exact B1].
  - assert (Hnz : depth <> 0).
    { intros ->. vm_compute in Hfuel. discriminate. }
    destruct (Hal (nreq st) url (user_agent (viper st)))
      as (c & content & urls & u & Hx & Hex & Hin & Hu).
    pose proof (doRequest_Response env url (emit (EvBrowse url depth) st) c content Hx)
      as Hfst.
    destruct (doRequest env url (emit (EvBrowse url depth) st))
      as [[content' err] st1] eqn:Hreq.
    simpl in Hfst. injection Hfst as -> ->. simpl snd in *.
    destruct (getLinks_spec content st1) as (urls' & Hex' & Hlinks).
    rewrite (Extracts_functional _ _ _ Hex' Hex) in Hlinks.
    assert (Hne : filter (fun v => negb (isBlacklisted v st1)) urls <> []).
    { intros E.
      assert (Hi : In u (filter (fun v => negb (isBlacklisted v st1)) urls)).
      { apply filter_In. split; [exact Hin|]. unfold isBlacklisted.
        now rewrite B1, Hu. }
      rewrite E in Hi. exact Hi. }
    pose proof (Frame_wf _ _ _ F01) as Hwf1.
    pose proof (Frame_wait_span _ _ _ Hwf F01) as Hs1.
    destruct (browse_hop fuel env url depth st st1 content _ Hnz Hreq Hlinks Hne
                         ltac:(lia)) as (next & _ & ->).
    pose proof (Frame_hop env st1 Hwf1) as Fh.
    rewrite (browse_fuel_pred depth Hr Hnz) in Hfuel. injection Hfuel as Hfuel.
    destruct (IH next (GoInt.sub depth 1) (hop_state env st1) (wrap_in_range _)
                 (Frame_wf _ _ _ Fh)
                 ltac:(rewrite (Frame_wait_span _ _ _ Hwf1 Fh); lia)
                 ltac:(simpl; rewrite B1; exact Hal) Hfuel)
      as (st' & new & E & F & Hlen & Hbl).
    exists st'. eexists. split; [exact E|].
    split; [exact (Frame_trans _ _ _ _ _ (Frame_trans _ _ _ _ _ F01 Fh) F)|].
    split.
    + rewrite !requests_app, !length_app. simpl. rewrite R, Hlen. simpl. lia.
    + rewrite Hbl. simpl. exact B1.
Qed.

Lemma env_sample_always_links : AlwaysLinks env_sample (blacklist (viper sample_state)).
Proof.
  intros n url ua. exists 200, sample_page.
  destruct (getLinks_spec sample_page sample_state) as (urls & Hex & E).
  exists urls, "http://a.example/x". split; [reflexivity|]. split; [exact Hex|].
  split; [|reflexivity].
  assert (Hin : In "http://a.example/x"
                   (filter (fun u => negb (isBlacklisted u sample_state)) urls)).
  { assert (E' : getLinks sample_page sample_state
                 = Ok ["http://a.example/x"; "http://a.example/x"] sample_state)
      by (vm_compute; reflexivity).
    rewrite E in E'. injection E' as ->. now left. }
  apply filter_In in Hin. exact (proj1 Hin).
Qed.

(** On such a network a traversal deeper than the stack never comes back:
    every call goes on with a link, until the stack overflows. *)
Lemma deep_traversal_overflows (env : Env) (fuel : nat) :
  forall (url : string) (depth : Z) (st : State),
    GoInt.in_range depth -> wf_state st -> 0 < wait_span st ->
    AlwaysLinks env (blacklist (viper st)) ->
    (fuel < browse_fuel depth)%nat ->
    recursiveBrowse_fuel fuel env url depth st = OutOfFuel.
Proof.
  induction fuel as [|fuel IH]; intros url depth st Hr Hwf Hspan Hal Hfuel.
  all: assert (Hnz : depth <> 0)
         by (intros ->; vm_compute in Hfuel; lia).
  all: assert (F0 : Frame st (emit (EvBrowse url depth) st) [EvBrowse url depth])
         by (now apply Frame_emit).
  all: pose proof (doRequest_Frame env url _ (Frame_wf _ _ _ F0)) as F1.
  all: pose proof (doRequest_blacklist env url (emit (EvBrowse url depth) st)) as B1.
  all: change (blacklist (viper (emit (EvBrowse url depth) st)))
         with (blacklist (viper st)) in B1.
  all: pose proof (Frame_trans _ _ _ _ _ F0 F1) as F01; simpl app in F01.
  all: destruct (Hal (nreq st) url (user_agent (viper st)))
         as (c & content & urls & u & Hx & Hex & Hin & Hu).
  all: pose proof (doRequest_Response env url (emit (EvBrowse url depth) st) c content Hx)
         as Hfst.
  all: destruct (doRequest env url (emit (EvBrowse url depth) st))
         as [[content' err] st1] eqn:Hreq.
  all: simpl in Hfst; injection Hfst as -> ->; simpl snd in *.
  all: destruct (getLinks_spec content st1) as (urls' & Hex' & Hlinks).
  all: rewrite (Extracts_functional _ _ _ Hex' Hex) in Hlinks.
  all: assert (Hne : filter (fun v => negb (isBlacklisted v st1)) urls <> [])
         by (intros E;
             assert (Hi : In u (filter (fun v => negb (isBlacklisted v st1)) urls))
               by (apply filter_In; split; [exact Hin|]; unfold isBlacklisted;
                   now rewrite B1, Hu);
             rewrite E in Hi; exact Hi).
  all: pose proof (Frame_wf _ _ _ F01) as Hwf1.
  all: pose proof (Frame_wait_span _ _ _ Hwf F01) as Hs1.
  all: destruct (browse_hop_any env url depth st st1 content _ Hnz Hreq Hlinks Hne
                   ltac:(lia)) as (next & _ & E); rewrite E.
  - reflexivity.
  - pose proof (Frame_hop env st1 Hwf1) as Fh.
    rewrite (browse_fuel_pred depth Hr Hnz) in Hfuel.
    apply IH; [apply wrap_in_range | exact (Frame_wf _ _ _ Fh) | | | lia].
    + rewrite (Frame_wait_span _ _ _ Hwf1 Fh). lia.
    + simpl. rewrite B1. exact Hal.
Qed.

(** X6. On a network where every exchange gives a page with a link that the
    blacklist lets through, and with a positive argument for the draw of
    the sleep time (wait bounds in order), the bound of the depth is
    reached.  On a stack that holds [stack] nested calls, a traversal of
    depth [d] with [0 <= d <= stack] returns after exactly [d + 1]
    requests, as the traversal on an unbounded stack does, and leaves the
    blacklist as it was; a traversal of depth above [stack] overflows the
    stack; and so does a traversal of negative depth, which does not stop
    at 0 on its way down, on every stack of at most [MaxInt] calls. *)
Theorem traversal_reaches_its_depth (stack : nat) (env : Env) (url : string)
        (depth : Z) (st : State) :
  GoInt.in_range depth -> wf_state st -> 0 < wait_span st ->
  AlwaysLinks env (blacklist (viper st)) ->
  (0 <= depth <= Z.of_nat stack ->
   exists st' new,
     recursiveBrowse_fuel stack env url depth st = Ok tt st' /\
     recursiveBrowse env url depth st = Ok tt st' /\
     trace st' = (trace st ++ new)%list /\
     blacklist (viper st') = blacklist (viper st) /\
     Z.of_nat (List.length (requests new)) = depth + 1) /\
  (Z.of_nat stack < depth ->
   recursiveBrowse_fuel stack env url depth st = OutOfFuel) /\
  (depth < 0 -> Z.of_nat stack <= GoInt.MaxInt ->
   recursiveBrowse_fuel stack env url depth st = OutOfFuel).
Proof.
  intros Hr Hwf Hspan Hal.
  assert (HM : GoInt.MaxInt = 9223372036854775807) by reflexivity.
  assert (Hm : GoInt.MinInt = -9223372036854775808) by reflexivity.
  assert (Hmod : GoInt.modulus = 18446744073709551616) by reflexivity.
  pose proof Hr as [Hlo Hhi]. rewrite Hm in Hlo. rewrite HM in Hhi.
  split; [|split].
  - intros Hd.
    destruct (full_depth env (browse_fuel depth) url depth st Hr Hwf Hspan Hal eq_refl)
      as (st' & new & E & F & Hlen & Hbl).
    assert (Hf : browse_fuel depth = Z.to_nat depth)
      by (apply browse_fuel_nonneg; rewrite HM; lia).
    exists st', new. split.
    { rewrite (browse_fuel_mono (browse_fuel depth) stack env url depth st)
        by (rewrite ?E; try discriminate; lia). exact E. }
    split; [exact E|]. destruct F as (Ht & _).
    split; [exact Ht|]. split; [exact Hbl|].
    rewrite Hlen, Hf. lia.
  - intros Hd. apply deep_traversal_overflows; try assumption.
    rewrite browse_fuel_nonneg by (rewrite HM; lia). lia.
  - intros Hd Hstack. rewrite HM in Hstack.
    apply deep_traversal_overflows; try assumption.
    unfold browse_fuel, GoInt.unsigned. rewrite Hmod.
    replace depth with (depth + 18446744073709551616 + (-1) * 18446744073709551616)
      by lia.
    rewrite Z.mod_add by lia. rewrite Z.mod_small by lia. lia.
Qed.

Lemma traversal_reaches_its_depth_witness :
  GoInt.in_range 2 /\ wf_state sample_state /\ 0 < wait_span sample_state /\
  AlwaysLinks env_sample (blacklist (viper sample_state)) /\
  (exists st' new,
     recursiveBrowse_fuel 1000 env_sample "https://www.example.com" 2 sample_state
     = Ok tt st' /\
     recursiveBrowse env_sample "https://www.example.com" 2 sample_state = Ok tt st' /\
     trace st' = (trace sample_state ++ new)%list /\
     blacklist (viper st') = blacklist (viper sample_state) /\
     Z.of_nat (List.length (requests new)) = 2 + 1) /\
  recursiveBrowse_fuel 1 env_sample "https://www.example.com" 2 sample_state
  = OutOfFuel.
Proof.
  assert (Hr : GoInt.in_range 2) by (split; vm_compute; discriminate).
  assert (Hs : 0 < wait_span sample_state) by (vm_compute; reflexivity).
  split; [exact Hr|]. split; [exact sample_state_wf|]. split; [exact Hs|].
  split; [exact env_sample_always_links|]. split.
  - apply (proj1 (traversal_reaches_its_depth 1000 env_sample "https://www.example.com"
                    2 sample_state Hr sample_state_wf Hs env_sample_always_links)).
    lia.
  - apply (proj1 (proj2 (traversal_reaches_its_depth 1 env_sample
                           "https://www.example.com" 2 sample_state Hr
                           sample_state_wf Hs env_sample_always_links))).
    simpl. lia.
Defined.

(** ** The pause between two requests *)

(** X7. One hop of a traversal, with the wait bounds in order: the sleep time
    drawn lies between [min_wait] and [max_wait] as they are after the
    request, the link followed is one of the valid links of the page, and
    the traversal goes on from it with the depth minus one.  For bounds up
    to 9223372036 seconds the duration handed to [time.Sleep] is that many
    seconds; above, the multiplication by [time.Second] wraps around. *)
Theorem hop_sleeps_within_bounds (fuel : nat) (env : Env) (url : string) (depth : Z)
        (st st1 : State) (content : string) (validLinks : list string) :
  depth <> 0 ->
  doRequest env url (emit (EvBrowse url depth) st) = ((content, None), st1) ->
  getLinks content st1 = Ok validLinks st1 ->
  validLinks <> [] ->
  GoInt.in_range (min_wait (viper st1)) -> GoInt.in_range (max_wait (viper st1)) ->
  min_wait (viper st1) <= max_wait (viper st1) ->
  max_wait (viper st1) - min_wait (viper st1) < GoInt.MaxInt ->
  exists next,
    In next validLinks /\ isBlacklisted next st1 = false /\
    min_wait (viper st1) <= hop_sleepTime env st1 <= max_wait (viper st1) /\
    recursiveBrowse_fuel (S fuel) env url depth st
    = recursiveBrowse_fuel fuel env next (GoInt.sub depth 1) (hop_state env st1) /\
    trace (hop_state env st1)
    = (trace st1 ++ [EvSleep (GoInt.mul (hop_sleepTime env st1) Second)])%list /\
    (0 <= min_wait (viper st1) -> max_wait (viper st1) <= 9223372036 ->
     GoInt.mul (hop_sleepTime env st1) Second = hop_sleepTime env st1 * Second).
Proof.
  intros Hd Hreq Hlinks Hne Hmin Hmax Hle Hw.
  assert (Hspan : wait_span st1 = max_wait (viper st1) - min_wait (viper st1) + 1).
  { unfold wait_span, GoInt.add, GoInt.sub.
    rewrite (wrap_small (max_wait (viper st1) - min_wait (viper st1)))
      by (unfold GoInt.in_range, GoInt.MinInt, GoInt.MaxInt in *; lia).
    apply wrap_small. unfold GoInt.in_range, GoInt.MinInt, GoInt.MaxInt in *. lia. }
  destruct (browse_hop fuel env url depth st st1 content validLinks Hd Hreq Hlinks
                       Hne ltac:(lia)) as (next & Hin & E).
  pose proof (Z.mod_pos_bound (rand_src env (ndraw st1)) (wait_span st1) ltac:(lia))
    as Hn.
  assert (Ht : hop_sleepTime env st1
               = rand_src env (ndraw st1) mod wait_span st1 + min_wait (viper st1)).
  { unfold hop_sleepTime, GoInt.add. apply wrap_small.
    unfold GoInt.in_range, GoInt.MinInt, GoInt.MaxInt in *. lia. }
  exists next. split; [exact Hin|]. split.
  { destruct (getLinks_spec content st1) as (urls & _ & E').
    rewrite E' in Hlinks. injection Hlinks as <-.
    apply filter_In in Hin. now apply negb_true_iff. }
  split; [lia|]. split; [exact E|]. split; [reflexivity|].
  intros H0 Hbig. unfold GoInt.mul. apply wrap_small.
  unfold GoInt.in_range, GoInt.MinInt, GoInt.MaxInt, Second, GoInt.bits in *.
  change (2 ^ (64 - 1)) with 9223372036854775808 in *. lia.
Qed.

Lemma hop_sleeps_within_bounds_witness :
  exists next,
    In next ["http://a.example/x"; "http://a.example/x"] /\
    5 <= hop_sleepTime env_sample
           (snd (doRequest env_sample "https://www.example.com"
                   (emit (EvBrowse "https://www.example.com" 2) sample_state))) <= 10 /\
    recursiveBrowse_fuel 2 env_sample "https://www.example.com" 2 sample_state
    = recursiveBrowse_fuel 1 env_sample next (GoInt.sub 2 1)
        (hop_state env_sample
           (snd (doRequest env_sample "https://www.example.com"
                   (emit (EvBrowse "https://www.example.com" 2) sample_state)))).
Proof.
  destruct (hop_sleeps_within_bounds 1 env_sample "https://www.example.com" 2
              sample_state
              (snd (doRequest env_sample "https://www.example.com"
                      (emit (EvBrowse "https://www.example.com" 2) sample_state)))
              sample_page ["http://a.example/x"; "http://a.example/x"]
              ltac:(discriminate) eq_refl ltac:(vm_compute; reflexivity)
              ltac:(discriminate)
              ltac:(split; vm_compute; discriminate)
              ltac:(split; vm_compute; discriminate)
              ltac:(vm_compute; discriminate)
              ltac:(vm_compute; reflexivity))
    as (next & Hin & _ & Hb & E & _).
  exists next. split; [exact Hin|]. split; [exact Hb | exact E].
Defined.

(** ** One iteration of the driver loop *)

(** X3. Without root URLs the first iteration of the driver loop panics, in the
    draw of the root, before anything is requested or drawn. *)
Theorem run_panics_without_roots (env : Env) (st : State) (n : nat) :
  root_urls (viper st) = [] -> run (S n) env st = Panic st.
Proof.
  intros Hr. simpl. unfold bind. rewrite run_iteration_unfold, Hr.
  rewrite Intn_panic by (unfold len; simpl; lia). reflexivity.
Qed.

Lemma run_panics_without_roots_witness :
  root_urls (viper (initial_state flags_only_viper)) = [] /\
  run 1 env_sample (initial_state flags_only_viper)
  = Panic (initial_state flags_only_viper).
Proof.
  split; [reflexivity|].
  exact (run_panics_without_roots env_sample (initial_state flags_only_viper) 0
           eq_refl).
Defined.

(** X4. With depth bounds in the wrong order the first iteration panics in the
    draw of the depth: a root has been drawn, nothing has been requested. *)
Theorem run_panics_on_reversed_depths (env : Env) (st : State) (n : nat) :
  root_urls (viper st) <> [] ->
  0 <= max_depth (viper st) -> max_depth (viper st) < min_depth (viper st) ->
  min_depth (viper st) <= GoInt.MaxInt ->
  run (S n) env st = Panic (count_draw st).
Proof.
  intros Hr H0 Hlt Hmax. simpl. unfold bind. rewrite run_iteration_unfold.
  rewrite (Intn_ok env _ st (len_pos _ Hr)).
  destruct (index_ok (root_urls (viper st))
              (rand_src env (ndraw st) mod len (root_urls (viper st)))
              (count_draw st)) as (root & -> & _).
  { apply Z.mod_pos_bound. now apply len_pos. }
  rewrite Intn_panic; [reflexivity|].
  change (viper (count_draw st)) with (viper st).
  unfold GoInt.add, GoInt.sub.
  unfold GoInt.MaxInt, GoInt.bits in *. change (2 ^ (64 - 1)) with 9223372036854775808 in *.
  rewrite (wrap_small (max_depth (viper st) - min_depth (viper st)))
    by (unfold GoInt.in_range, GoInt.MinInt, GoInt.MaxInt, GoInt.bits;
        change (2 ^ (64 - 1)) with 9223372036854775808; lia).
  rewrite wrap_small
    by (unfold GoInt.in_range, GoInt.MinInt, GoInt.MaxInt, GoInt.bits;
        change (2 ^ (64 - 1)) with 9223372036854775808; lia).
  lia.
Qed.

Lemma run_panics_on_reversed_depths_witness :
  run 1 env_sample (initial_state reversed_depths_viper)
  = Panic (count_draw (initial_state reversed_depths_viper)).
Proof.
  apply (run_panics_on_reversed_depths env_sample
           (initial_state reversed_depths_viper) 0).
  - discriminate.
  - vm_compute. discriminate.
  - vm_compute. reflexivity.
  - vm_compute. discriminate.
Defined.

(** X5. One iteration of the driver loop, with at least one root URL, depth
    bounds in order that are not negative, [max_depth] below the largest
    [int], and a stack that holds [max_depth] nested calls: it ends, by
    returning or by a panic of its traversal, and not by a stack overflow,
    so that it is the iteration on an unbounded stack; it starts one
    traversal, from one of the root URLs, blacklisted or not, at a depth
    between [min_depth] and [max_depth]; and it makes at least one request
    and at most [max_depth + 1]. *)
Theorem iteration_depth_and_requests (stack : nat) (env : Env) (st : State) :
  wf_state st -> root_urls (viper st) <> [] ->
  0 <= min_depth (viper st) -> min_depth (viper st) <= max_depth (viper st) ->
  max_depth (viper st) < GoInt.MaxInt ->
  max_depth (viper st) <= Z.of_nat stack ->
  exists st' root depth rest,
    ends_in (run_iteration_on stack env st) st' /\
    run_iteration env st = run_iteration_on stack env st /\
    trace st' = (trace st ++ EvRoot root :: EvBrowse root depth :: rest)%list /\
    In root (root_urls (viper st)) /\
    min_depth (viper st) <= depth <= max_depth (viper st) /\
    1 <= Z.of_nat (List.length (requests rest)) <= max_depth (viper st) + 1.
Proof.
  intros Hwf Hr H0 Hle Hmax Hstack.
  assert (HM : GoInt.MaxInt = 9223372036854775807) by reflexivity.
  assert (Hds : depth_span st = max_depth (viper st) - min_depth (viper st) + 1).
  { unfold depth_span, GoInt.add, GoInt.sub.
    rewrite (wrap_small (max_depth (viper st) - min_depth (viper st)))
      by (unfold GoInt.in_range, GoInt.MinInt; rewrite HM; simpl; lia).
    apply wrap_small. unfold GoInt.in_range, GoInt.MinInt. rewrite HM. simpl. lia. }
  assert (Hpos : 0 < depth_span st) by lia.
  destruct (iteration_draws stack env st Hr Hpos) as (root & Hin & E & E').
  pose proof (Z.mod_pos_bound (rand_src env (S (ndraw st))) (depth_span st) Hpos) as Hd.
  set (d := rand_src env (S (ndraw st)) mod depth_span st) in *.
  assert (Hdepth : GoInt.add d (min_depth (viper st)) = d + min_depth (viper st)).
  { apply wrap_small. unfold GoInt.in_range, GoInt.MinInt. rewrite HM. simpl. lia. }
  rewrite Hdepth in E, E'. set (depth := d + min_depth (viper st)) in *.
  assert (Hrange : 0 <= depth <= GoInt.MaxInt) by (unfold depth; lia).
  assert (Hir : GoInt.in_range depth).
  { unfold GoInt.in_range, GoInt.MinInt. simpl. lia. }
  assert (Hfuel : (browse_fuel depth <= stack)%nat).
  { rewrite (browse_fuel_nonneg depth Hrange). unfold depth. lia. }
  set (s3 := emit (EvRoot root) (count_draw (count_draw st))) in *.
  pose proof (browse_post (browse_fuel depth) env root depth s3 Hir Hwf (le_n _)) as HB.
  assert (Hcount : forall s5, BrowsePost s3 root depth s5 ->
            exists rest,
              trace s5 = (trace st ++ EvRoot root :: EvBrowse root depth :: rest)%list /\
              1 <= Z.of_nat (List.length (requests rest)) <= max_depth (viper st) + 1).
  { intros s5 (rest & F & _ & Hlen & Heq & _). exists rest.
    destruct F as (Ht & _). simpl in Ht. rewrite <- app_assoc in Ht.
    split; [exact Ht|]. rewrite (browse_fuel_nonneg depth Hrange) in Hlen.
    simpl in Heq. unfold depth in *. lia. }
  assert (Hsame : recursiveBrowse_fuel stack env root depth s3
                  = recursiveBrowse env root depth s3).
  { unfold recursiveBrowse. apply browse_fuel_mono; [exact Hfuel|].
    intros E0. rewrite E0 in HB. exact HB. }
  rewrite Hsame in E. unfold recursiveBrowse in E, E'.
  destruct (recursiveBrowse_fuel (browse_fuel depth) env root depth s3)
    as [[] s5|s5|]; [| |contradiction]; destruct (Hcount s5 HB) as (rest & Ht & Hn).
  - exists (Sleep_seconds 10 s5), root, depth,
      (rest ++ [EvSleep (GoInt.mul 10 Second)])%list.
    rewrite E, E'.
    split; [reflexivity|]. split; [reflexivity|].
    split; [|split; [exact Hin|split; [unfold depth; lia|]]].
    + simpl. rewrite Ht, <- app_assoc. reflexivity.
    + rewrite requests_app. simpl. now rewrite app_nil_r.
  - exists s5, root, depth, rest.
    rewrite E, E'.
    split; [reflexivity|]. split; [reflexivity|]. split; [exact Ht|].
    split; [exact Hin|]. split; [unfold depth; lia | exact Hn].
Qed.

Lemma iteration_depth_and_requests_witness :
  wf_state sample_state /\
  exists st' root depth rest,
    ends_in (run_iteration_on 1000 env_sample sample_state) st' /\
    run_iteration env_sample sample_state
    = run_iteration_on 1000 env_sample sample_state /\
    trace st' = (trace sample_state ++ EvRoot root :: EvBrowse root depth :: rest)%list /\
    In root (root_urls (viper sample_state)) /\
    min_depth (viper sample_state) <= depth <= max_depth (viper sample_state) /\
    1 <= Z.of_nat (List.length (requests rest)) <= max_depth (viper sample_state) + 1.
Proof.
  split; [exact sample_state_wf|].
  apply (iteration_depth_and_requests 1000 env_sample sample_state sample_state_wf).
  - discriminate.
  - vm_compute. discriminate.
  - vm_compute. discriminate.
  - vm_compute. reflexivity.
  - vm_compute. discriminate.
Defined.

(** ** The size printer *)

Lemma hrBytes_loop_spec (bytes : Z) (fuel : nat) :
  forall n div exp,
    bytes <= GoInt.MaxInt -> 0 <= exp -> div = 1000 ^ (exp + 1) ->
    n = bytes / div -> 1 <= n -> n < 2 ^ Z.of_nat fuel ->
    exists div' exp',
      HrBytes.hrBytes_loop fuel n div exp = Some (div', exp') /\
      exp <= exp' /\ div' = 1000 ^ (exp' + 1) /\
      div' <= bytes < 1000 * div'.
Proof.
  induction fuel as [|fuel IH]; intros n div exp Hmax Hexp Hdiv Hn H1 Hlt.
  all: assert (Hdpos : 0 < div) by (subst div; apply Z.pow_pos_nonneg; lia).
  all: assert (Hbounds : n < 1000 -> div <= bytes < 1000 * div)
         by (intros Hsmall; subst n;
             pose proof (Z.mul_div_le bytes div Hdpos);
             pose proof (Z.mul_succ_div_gt bytes div Hdpos); nia).
  all: cbn [HrBytes.hrBytes_loop]; unfold HrBytes.unit.
  all: destruct (Z.geb_spec n 1000) as [Hge|Hsmall].
  - simpl in Hlt. lia.
  - exists div, exp. split; [reflexivity|]. split; [lia|]. split; [exact Hdiv|].
    exact (Hbounds Hsmall).
  - assert (Hmul : 1000 * div <= bytes).
    { subst n. pose proof (Z.mul_div_le bytes div Hdpos). nia. }
    assert (HM : GoInt.MaxInt = 9223372036854775807) by reflexivity.
    assert (Hm : GoInt.mul div 1000 = div * 1000).
    { apply wrap_small. unfold GoInt.in_range, GoInt.MinInt. rewrite HM. simpl. lia. }
    assert (He : GoInt.add exp 1 = exp + 1).
    { apply wrap_small. unfold GoInt.in_range, GoInt.MinInt. rewrite HM. simpl.
      pose proof (Z.pow_gt_lin_r 1000 (exp + 1) ltac:(lia) ltac:(lia)). lia. }
    rewrite Hm, He, (Z.quot_div_nonneg n 1000) by lia.
    destruct (IH (n / 1000) (div * 1000) (exp + 1) Hmax ltac:(lia))
      as (div' & exp' & E & Hle & Hd' & Hb').
    + subst div. replace (exp + 1 + 1) with (Z.succ (exp + 1)) by lia.
      rewrite (Z.pow_succ_r 1000 (exp + 1)) by lia. lia.
    + subst n. rewrite Z.div_div by lia. reflexivity.
    + apply Z.div_le_lower_bound; lia.
    + apply Z.div_lt_upper_bound; [lia|].
      rewrite Nat2Z.inj_succ, Z.pow_succ_r in Hlt by lia.
      pose proof (Z.pow_pos_nonneg 2 (Z.of_nat fuel) ltac:(lia) ltac:(lia)). lia.
    + exists div', exp'. split; [exact E|]. split; [lia|]. now split.
  - exists div, exp. split; [reflexivity|]. split; [lia|]. split; [exact Hdiv|].
    exact (Hbounds Hsmall).
Qed.

(** X1. [hrBytes] never panics on an [int64] and its loop ends.  Below 1000,
    negative counts too, the count is printed as it is.  From 1000 on, the
    divisor is the power of 1000 with [div <= bytes < 1000 * div], computed
    without overflow, and the unit is the letter of that power among K, M,
    G, T, P and E: the index into the letters is never out of range. *)
Theorem hrBytes_picks_the_unit (bytes : Z) :
  GoInt.in_range bytes ->
  (bytes < 1000 -> HrBytes.hrBytes bytes = HrBytes.Done (HrBytes.PlainBytes bytes)) /\
  (1000 <= bytes ->
   exists div exp c,
     HrBytes.hrBytes bytes = HrBytes.Done (HrBytes.ScaledBytes bytes div c) /\
     0 <= exp <= 5 /\ div = 1000 ^ (exp + 1) /\
     HrBytes.string_index "KMGTPE" exp = Some c /\
     div <= bytes < 1000 * div).
Proof.
  intros [_ Hmax]. unfold HrBytes.hrBytes, HrBytes.unit. split.
  - intros Hlt. destruct (Z.ltb_spec bytes 1000) as [_|H]; [reflexivity | lia].
  - intros Hge. destruct (Z.ltb_spec bytes 1000) as [H|_]; [lia|].
    assert (HM : GoInt.MaxInt = 9223372036854775807) by reflexivity.
    rewrite (Z.quot_div_nonneg bytes 1000) by lia.
    destruct (hrBytes_loop_spec bytes HrBytes.hrBytes_fuel (bytes / 1000) 1000 0
                Hmax ltac:(lia) eq_refl eq_refl)
      as (div & exp & E & Hexp & Hdiv & Hb).
    + apply Z.div_le_lower_bound; lia.
    + apply Z.div_lt_upper_bound; [lia|].
      change (2 ^ Z.of_nat HrBytes.hrBytes_fuel) with 18446744073709551616. lia.
    + rewrite E.
      assert (Hexp5 : exp <= 5).
      { destruct (Z_le_gt_dec exp 5) as [Hle|Hgt]; [exact Hle|].
        pose proof (Z.pow_le_mono_r 1000 7 (exp + 1) ltac:(lia) ltac:(lia)) as Hp.
        change (1000 ^ 7) with 1000000000000000000000 in Hp. lia. }
      assert (Hcase : exp = 0 \/ exp = 1 \/ exp = 2 \/ exp = 3 \/ exp = 4 \/ exp = 5)
        by lia.
      destruct Hcase as [->|[->|[->|[->|[->| ->]]]]]; simpl;
        [exists div, 0, "K"%char | exists div, 1, "M"%char
        |exists div, 2, "G"%char | exists div, 3, "T"%char
        |exists div, 4, "P"%char | exists div, 5, "E"%char];
        (split; [reflexivity|]); (split; [lia|]);
        (split; [exact Hdiv|]); (split; [reflexivity | exact Hb]).
Qed.

Lemma hrBytes_picks_the_unit_witness :
  GoInt.in_range 1234567 /\
  HrBytes.hrBytes 1234567 = HrBytes.Done (HrBytes.ScaledBytes 1234567 1000000 "M") /\
  HrBytes.hrBytes (-5) = HrBytes.Done (HrBytes.PlainBytes (-5)).
Proof.
  assert (Hr : GoInt.in_range 1234567) by (split; vm_compute; discriminate).
  split; [exact Hr|]. split.
  - destruct (proj2 (hrBytes_picks_the_unit 1234567 Hr) ltac:(lia))
      as (div & exp & c & E & _). vm_compute. reflexivity.
  - apply (proj1 (hrBytes_picks_the_unit (-5) ltac:(split; vm_compute; discriminate))).
    lia.
Defined.

(** ** What blacklisting a URL excludes *)

(** X16. Once a URL has been appended to the blacklist, [getLinks] returns no
    link that contains it: neither the URL itself nor any longer URL that
    extends it, such as the pages below a blacklisted front page. *)
Theorem blacklisted_url_excludes_extensions (url link content : string) (st : State) :
  Substring url link ->
  exists validLinks,
    getLinks content (blacklist_url url st) = Ok validLinks (blacklist_url url st) /\
    ~ In link validLinks.
Proof.
  intros Hsub. destruct (getLinks_spec content (blacklist_url url st)) as (urls & _ & E).
  eexists. split; [exact E|]. intros Hin. apply filter_In in Hin.
  destruct Hin as [_ Hnb]. apply negb_true_iff in Hnb.
  assert (Hb : isBlacklisted link (blacklist_url url st) = true).
  { apply isBlacklisted_in_iff. exists url. split; [|exact Hsub].
    simpl. apply in_or_app. right. now left. }
  congruence.
Qed.

Lemma blacklisted_url_excludes_extensions_witness :
  Substring "http://a.example/" "http://a.example/x" /\
  getLinks sample_page (blacklist_url "http://a.example/" sample_state)
  = Ok [] (blacklist_url "http://a.example/" sample_state).
Proof.
  assert (Hs : Substring "http://a.example/" "http://a.example/x")
    by (exists "", "x"; reflexivity).
  split; [exact Hs|].
  destruct (blacklisted_url_excludes_extensions "http://a.example/"
              "http://a.example/x" sample_page sample_state Hs) as (l & E & _).
  vm_compute. reflexivity.
Defined.

(** ** Wait bounds in the wrong order *)

(** X8. With [0 <= max_wait < min_wait <= MaxInt], read in the state after
    the request, a traversal panics at the first page that has a valid
    link, in the draw of the sleep time: the request has been made and
    counted, nothing is blacklisted and no pause is taken.  A negative
    [max_wait] is left out: the argument of the draw can then wrap around
    to a positive number. *)
Theorem reversed_waits_panic_at_first_hop (fuel : nat) (env : Env) (url : string)
        (depth : Z) (st st1 : State) (content : string) (validLinks : list string) :
  depth <> 0 ->
  doRequest env url (emit (EvBrowse url depth) st) = ((content, None), st1) ->
  getLinks content st1 = Ok validLinks st1 ->
  validLinks <> [] ->
  0 <= max_wait (viper st1) -> max_wait (viper st1) < min_wait (viper st1) ->
  min_wait (viper st1) <= GoInt.MaxInt ->
  recursiveBrowse_fuel fuel env url depth st = Panic st1 /\
  blacklist (viper st1) = blacklist (viper st).
Proof.
  intros Hd Hreq Hlinks Hne H0 Hlt Hmax.
  pose proof (doRequest_blacklist env url (emit (EvBrowse url depth) st)) as Hbl.
  rewrite Hreq in Hbl. split; [|exact Hbl].
  assert (Hspan : wait_span st1 <= 0).
  { unfold wait_span, GoInt.add, GoInt.sub.
    assert (HM : GoInt.MaxInt = 9223372036854775807) by reflexivity.
    rewrite (wrap_small (max_wait (viper st1) - min_wait (viper st1)))
      by (unfold GoInt.in_range, GoInt.MinInt; rewrite HM; simpl; lia).
    rewrite wrap_small
      by (unfold GoInt.in_range, GoInt.MinInt; rewrite HM; simpl; lia).
    lia. }
  rewrite browse_unfold. cbv zeta. rewrite Hreq.
  destruct (Z.eqb_spec depth 0) as [E|_]; [contradiction|].
  simpl fst. simpl snd. rewrite Hlinks.
  pose proof (len_pos validLinks Hne) as Hlen.
  destruct (Z.eqb_spec (len validLinks) 0) as [E|_]; [lia|].
  fold (wait_span st1). now rewrite (Intn_panic env _ st1 Hspan).
Qed.

Lemma reversed_waits_panic_at_first_hop_witness :
  recursiveBrowse_fuel 2 env_sample "https://www.example.com" 2
    (with_viper (set_max_wait 1) sample_state)
  = Panic (snd (doRequest env_sample "https://www.example.com"
                  (emit (EvBrowse "https://www.example.com" 2)
                        (with_viper (set_max_wait 1) sample_state)))).
Proof.
  apply (reversed_waits_panic_at_first_hop 2 env_sample "https://www.example.com" 2
           (with_viper (set_max_wait 1) sample_state) _ sample_page
           ["http://a.example/x"; "http://a.example/x"]).
  - discriminate.
  - reflexivity.
  - vm_compute. reflexivity.
  - discriminate.
  - vm_compute. discriminate.
  - vm_compute. reflexivity.
  - vm_compute. discriminate.
Defined.
